(** * dsdk: the request pipeline of the Datera Go SDK

    A shallow embedding of [pkg/dsdk]'s connection code: the list-parameter
    conversions ([ListParams.ToMap], [ListParamsFromMap]), the error
    classifier ([translateErrors]), the single attempt ([do]), the retry
    loop ([retry]), the session ([Login], [Logout], [hasLoggedIn]),
    [doWithAuth] and the list paginator ([GetList]).

    Go values are modelled as follows.
    - [int] and [int64] are [Z]; the functions below never compute outside
      the 64-bit range on values that are inside it.
    - [float64] is [Q]; its conversion to [int] is the integer part where
      that fits an [int], and is left to the platform where it does not,
      as in Go ([IntConversion]).
    - [string] is [string] (a sequence of bytes).
    - [map[string]string] is [gmap string string]; reading a missing key
      yields the empty string, as in Go.
    - [error] is the inductive [error]: the package's own error values
      (compared by identity in the source) are constructors of their own,
      every other error is [ErrOther] with its message.
    - A pointer that may be [nil] is an [option].
    - The network and the clock are an explicit [World]; a call that may
      not return is given fuel. *)

From Stdlib Require Import ZArith Lia Ascii String List Bool QArith.
From stdpp Require Import base option gmap strings list.

Local Open Scope string_scope.
Local Open Scope Z_scope.
Local Set Warnings "-register-all".

(* ===================================================================== *)
(** ** Strings and [strconv] *)
(* ===================================================================== *)

(** [strings.Contains(s, substr)]. *)
Fixpoint strings_Contains (s substr : string) : bool :=
  String.prefix substr s ||
  match s with
  | EmptyString => false
  | String _ s' => strings_Contains s' substr
  end.

(** The numeric value of a byte of a string. *)
Definition byte (c : ascii) : Z := Z.of_N (N_of_ascii c).

(** The byte with a given value (below 256). *)
Definition chr (z : Z) : ascii := ascii_of_N (Z.to_N z).

(** [strconv]'s digit of a value below 36: ['0'..'9'], then ['a'..'z']. *)
Definition digit_char (d : Z) : ascii :=
  if d <? 10 then chr (48 + d) else chr (97 + (d - 10)).

(** The digits of [u] in [base], most significant first. [fuel] bounds the
    number of digits. *)
Fixpoint formatBits (fuel : nat) (u base : Z) : string :=
  match fuel with
  | O => EmptyString
  | S fuel' =>
      if u <? base then String (digit_char u) EmptyString
      else formatBits fuel' (u / base) base +:+ String (digit_char (u mod base)) EmptyString
  end.

(** [strconv.FormatInt(i, base)]: a minus sign for a negative number, then
    the digits of its magnitude. *)
Definition strconv_FormatInt (i base : Z) : string :=
  let u := Z.abs i in
  let ds := formatBits (S (Z.to_nat (Z.log2 u))) u base in
  if i <? 0 then String "-" ds else ds.

(** The two ways [strconv.ParseInt] fails. *)
Inductive NumError : Type :=
| ErrSyntax
| ErrRange.

(** [strconv]'s [lower]: [c | ('x' - 'X')]. *)
Definition lower (c : Z) : Z := Z.lor c 32.

Definition maxUint64 : Z := 2 ^ 64 - 1.

(** [strconv.IntSize]: the size of [int] on the 64-bit platforms. *)
Definition IntSize : Z := 64.

(** The loop of [strconv.ParseUint] over the bytes of the number: [n] is
    the value read so far, [underscores] whether an underscore was seen. *)
Fixpoint parseUint_loop (base : Z) (base0 : bool) (cutoff maxVal : Z)
    (s : string) (n : Z) (underscores : bool) : Z * bool + NumError :=
  match s with
  | EmptyString => inl (n, underscores)
  | String ch s' =>
      let c := byte ch in
      if (c =? 95) && base0 then
        parseUint_loop base base0 cutoff maxVal s' n true
      else
        let d :=
          if (48 <=? c) && (c <=? 57) then Some (c - 48)
          else if (97 <=? lower c) && (lower c <=? 122) then Some (lower c - 97 + 10)
          else None in
        match d with
        | None => inr ErrSyntax
        | Some d =>
            if base <=? d then inr ErrSyntax
            else if cutoff <=? n then inr ErrRange
            else
              let n1 := n * base + d in
              if maxVal <? n1 then inr ErrRange
              else parseUint_loop base base0 cutoff maxVal s' n1 underscores
        end
  end.

(** The state of [strconv.underscoreOK]'s scan: what was last seen. *)
Inductive Saw : Type :=
| SawStart
| SawDigit
| SawUnderscore
| SawOther.

Fixpoint underscoreOK_loop (hex : bool) (s : string) (saw : Saw) : bool :=
  match s with
  | EmptyString => match saw with SawUnderscore => false | _ => true end
  | String ch s' =>
      let c := byte ch in
      if ((48 <=? c) && (c <=? 57)) || (hex && (97 <=? lower c) && (lower c <=? 102)) then
        underscoreOK_loop hex s' SawDigit
      else if c =? 95 then
        match saw with
        | SawDigit => underscoreOK_loop hex s' SawUnderscore
        | _ => false
        end
      else
        match saw with
        | SawUnderscore => false
        | _ => underscoreOK_loop hex s' SawOther
        end
  end.

(** Whether the string starts with a base prefix [0b], [0o] or [0x] (either
    case), and whether that prefix is the hexadecimal one. *)
Definition base_prefix (s : string) : option (Z * string) :=
  match s with
  | String c0 (String c1 rest) =>
      if byte c0 =? 48 then
        if lower (byte c1) =? 98 then Some (2, rest)
        else if lower (byte c1) =? 111 then Some (8, rest)
        else if lower (byte c1) =? 120 then Some (16, rest)
        else None
      else None
  | _ => None
  end.

(** [strconv.underscoreOK]: underscores only between digits, or between a
    base prefix and a digit. *)
Definition underscoreOK (s : string) : bool :=
  let s :=
    match s with
    | String c s' => if (byte c =? 45) || (byte c =? 43) then s' else s
    | EmptyString => s
    end in
  match base_prefix s with
  | Some (b, rest) => underscoreOK_loop (b =? 16) rest SawDigit
  | None => underscoreOK_loop false s SawStart
  end.

(** [strconv.ParseUint(s, base, bitSize)] for [base] 0 or 2..36. With
    [base] 0 the base is read off the prefix and underscores may separate
    digits. *)
Definition strconv_ParseUint (s : string) (base bitSize : Z) : Z + NumError :=
  match s with
  | EmptyString => inr ErrSyntax
  | String c0 tl =>
      let base0 := base =? 0 in
      let '(b, digits) :=
        if base0 then
          if byte c0 =? 48 then
            match base_prefix s with
            | Some (b, rest) =>
                if 3 <=? Z.of_nat (String.length s) then (b, rest) else (8, tl)
            | None => (8, tl)
            end
          else (10, s)
        else (base, s) in
      let bitSize := if bitSize =? 0 then IntSize else bitSize in
      let cutoff := maxUint64 / b + 1 in
      let maxVal := 2 ^ bitSize - 1 in
      match parseUint_loop b base0 cutoff maxVal digits 0 false with
      | inr e => inr e
      | inl (n, underscores) =>
          if underscores && negb (underscoreOK s) then inr ErrSyntax else inl n
      end
  end.

(** [strconv.ParseInt(s, base, bitSize)]: an optional sign, then
    [ParseUint], then the range check of the signed type. *)
Definition strconv_ParseInt (s : string) (base bitSize : Z) : Z + NumError :=
  match s with
  | EmptyString => inr ErrSyntax
  | String c0 tl =>
      let '(neg, s1) :=
        if byte c0 =? 43 then (false, tl)
        else if byte c0 =? 45 then (true, tl)
        else (false, s) in
      match strconv_ParseUint s1 base bitSize with
      | inr e => inr e
      | inl un =>
          let bitSize := if bitSize =? 0 then IntSize else bitSize in
          let cutoff := 2 ^ (bitSize - 1) in
          if negb neg && (cutoff <=? un) then inr ErrRange
          else if neg && (cutoff <? un) then inr ErrRange
          else inl (if neg then - un else un)
      end
  end.

(** The values of Go's [int] (64 bits). *)
Definition is_int (z : Z) : Prop := - 2 ^ 63 <= z < 2 ^ 63.

(* ===================================================================== *)
(** ** Outcomes of a call *)
(* ===================================================================== *)

(** What a Go call does: it returns, it panics, or (in this model) it is
    still running when the fuel given to it is spent. *)
Inductive outcome (A : Type) : Type :=
| Done (a : A)
| Panic (msg : string)
| OutOfFuel.

Arguments Done {A} a.
Arguments Panic {A} msg.
Arguments OutOfFuel {A}.

#[global] Instance outcome_ret : MRet outcome := fun A a => Done a.

#[global] Instance outcome_bind : MBind outcome := fun A B k m =>
  match m with
  | Done a => k a
  | Panic msg => Panic msg
  | OutOfFuel => OutOfFuel
  end.

(* ===================================================================== *)
(** ** List parameters *)
(* ===================================================================== *)

Record ListParams : Type := mkListParams {
  Filter : string;
  Limit : Z;
  Sort : string;
  Offset : Z;
}.

(** Go's [m[k]] on a [map[string]string]: the empty string for a missing key. *)
Definition index (m : gmap string string) (k : string) : string :=
  match m !! k with
  | Some v => v
  | None => EmptyString
  end.

(** [func (s ListParams) ToMap() map[string]string] *)
Definition ToMap (s : ListParams) : gmap string string :=
  let r : gmap string string := ∅ in
  let r := if negb (String.eqb (Filter s) "") then <["filter" := Filter s]> r else r in
  let r := if negb (Limit s =? 0) then <["limit" := strconv_FormatInt (Limit s) 10]> r else r in
  let r := if negb (String.eqb (Sort s) "") then <["sort" := Sort s]> r else r in
  let r := if negb (Offset s =? 0) then <["offset" := strconv_FormatInt (Offset s) 10]> r else r in
  r.

(** The message of the panic raised on a [strconv] error: the function
    and the kind of the error (Go's message also quotes the input). *)
Definition NumError_message (e : NumError) : string :=
  match e with
  | ErrSyntax => "strconv.ParseInt: invalid syntax"
  | ErrRange => "strconv.ParseInt: value out of range"
  end.

(** [strconv.ParseInt(s, 0, 0)] followed by [panic(err)] on an error. *)
Definition parse_or_panic (s : string) : outcome Z :=
  match strconv_ParseInt s 0 0 with
  | inl o => Done o
  | inr e => Panic (NumError_message e)
  end.

(** [func ListParamsFromMap(m map[string]string) *ListParams] *)
Definition ListParamsFromMap (m : gmap string string) : outcome ListParams :=
  let filter := index m "filter" in
  let sort := index m "sort" in
  offset ← (if negb (String.eqb (index m "offset") "")
            then parse_or_panic (index m "offset") else Done 0);
  limit ← (if negb (String.eqb (index m "limit") "")
           then parse_or_panic (index m "limit") else Done 0);
  Done {| Filter := filter; Limit := limit; Sort := sort; Offset := offset |}.

(** What [ToMap] is to hold under key [k]: a field that is not empty or
    zero, under its own name. *)
Definition query_entry (p : ListParams) (k : string) : option string :=
  if String.eqb k "filter" then
    if String.eqb (Filter p) "" then None else Some (Filter p)
  else if String.eqb k "limit" then
    if Limit p =? 0 then None else Some (strconv_FormatInt (Limit p) 10)
  else if String.eqb k "sort" then
    if String.eqb (Sort p) "" then None else Some (Sort p)
  else if String.eqb k "offset" then
    if Offset p =? 0 then None else Some (strconv_FormatInt (Offset p) 10)
  else None.

(** A query map in the form [ToMap] writes: its keys are among [filter],
    [sort], [limit] and [offset]; [filter] and [sort] are not empty; and
    [limit] and [offset] are the decimal numerals [strconv.FormatInt]
    writes for an [int] other than zero. *)
Definition canonical_query (m : gmap string string) : Prop :=
  forall k v, m !! k = Some v ->
    ((k = "filter" \/ k = "sort") /\ v <> "") \/
    ((k = "limit" \/ k = "offset") /\
     exists n, is_int n /\ n <> 0 /\ v = strconv_FormatInt n 10).

(** [ListRangeParams] and its two conversions. The record has the fields
    of [ListParams] and three more; its names live in a module of their
    own. *)
Module Range.

Record ListRangeParams : Type := mkListRangeParams {
  Since : string;
  From : string;
  To : string;
  Filter : string;
  Limit : Z;
  Sort : string;
  Offset : Z;
}.

(** [func (s ListRangeParams) ToMap() map[string]string] *)
Definition ToMap (s : ListRangeParams) : gmap string string :=
  let r : gmap string string := ∅ in
  let r := if negb (String.eqb (Filter s) "") then <["filter" := Filter s]> r else r in
  let r := if negb (Limit s =? 0) then <["limit" := strconv_FormatInt (Limit s) 10]> r else r in
  let r := if negb (String.eqb (Sort s) "") then <["sort" := Sort s]> r else r in
  let r := if negb (Offset s =? 0) then <["offset" := strconv_FormatInt (Offset s) 10]> r else r in
  let r := if negb (String.eqb (Since s) "") then <["since" := Since s]> r else r in
  let r := if negb (String.eqb (From s) "") then <["from" := From s]> r else r in
  let r := if negb (String.eqb (To s) "") then <["to" := To s]> r else r in
  r.

(** [func ListRangeParamsFromMap(m map[string]string) *ListRangeParams] *)
Definition ListRangeParamsFromMap (m : gmap string string) : outcome ListRangeParams :=
  let filter := index m "filter" in
  let sort := index m "sort" in
  let since := index m "since" in
  let from := index m "from" in
  let to := index m "to" in
  offset ← (if negb (String.eqb (index m "offset") "")
            then parse_or_panic (index m "offset") else Done 0);
  limit ← (if negb (String.eqb (index m "limit") "")
           then parse_or_panic (index m "limit") else Done 0);
  Done {| Since := since; From := from; To := to; Filter := filter; Limit := limit;
          Sort := sort; Offset := offset |}.

(** What [ToMap] is to hold under key [k]. *)
Definition query_entry (p : ListRangeParams) (k : string) : option string :=
  if String.eqb k "filter" then
    if String.eqb (Filter p) "" then None else Some (Filter p)
  else if String.eqb k "limit" then
    if Limit p =? 0 then None else Some (strconv_FormatInt (Limit p) 10)
  else if String.eqb k "sort" then
    if String.eqb (Sort p) "" then None else Some (Sort p)
  else if String.eqb k "offset" then
    if Offset p =? 0 then None else Some (strconv_FormatInt (Offset p) 10)
  else if String.eqb k "since" then
    if String.eqb (Since p) "" then None else Some (Since p)
  else if String.eqb k "from" then
    if String.eqb (From p) "" then None else Some (From p)
  else if String.eqb k "to" then
    if String.eqb (To p) "" then None else Some (To p)
  else None.

End Range.

(* ===================================================================== *)
(** ** Errors and envelopes *)
(* ===================================================================== *)

(** Go's [error] values. The first five are the entries of [badStatus];
    the source compares them by identity ([err == badStatus[...]]), which
    no error created elsewhere satisfies. *)
Inductive error : Type :=
| ErrInvalidRequest
| ErrPermissionDenied
| ErrRetry503
| ErrConnectionError
| ErrRetryRequestAfterLogin
| ErrRetryTimeout
| ErrOther (msg : string).

#[global] Instance error_eq_dec : EqDecision error.
Proof. solve_decision. Defined.

(** [err.Error()] *)
Definition Error (e : error) : string :=
  match e with
  | ErrInvalidRequest => "InvalidRequest"
  | ErrPermissionDenied => "PermissionDenied"
  | ErrRetry503 => "Retry503"
  | ErrConnectionError => "ConnectionError"
  | ErrRetryRequestAfterLogin => "RetryRequestAfterLogin"
  | ErrRetryTimeout =>
      "timeout reached before request completed successfully during retries"
  | ErrOther msg => msg
  end.

Definition RetryTimeout : Z := 300.
Definition InvalidRequest : Z := 400.
Definition PermissionDenied : Z := 401.
Definition Retry503 : Z := 503.
Definition ConnectionError : Z := 9998.
Definition RetryRequestAfterLogin : Z := 9999.

(** [badStatus[code]]: [nil] for a code that is no key of the map. *)
Definition badStatus (code : Z) : option error :=
  if code =? InvalidRequest then Some ErrInvalidRequest
  else if code =? PermissionDenied then Some ErrPermissionDenied
  else if code =? Retry503 then Some ErrRetry503
  else if code =? ConnectionError then Some ErrConnectionError
  else if code =? RetryRequestAfterLogin then Some ErrRetryRequestAfterLogin
  else None.

Definition VERSION : string := "1.1.5".
Definition DateraDriver : string := "Golang-SDK-" +:+ VERSION.

Definition canRetry : bool := true.
Definition isSensitive : bool := true.
Definition allowLogin : bool := true.

(** A value held in an [interface{}] after decoding JSON: [nil], [bool],
    [float64] (every JSON number), [string], [[]interface{}] or
    [map[string]interface{}]. A [float64] is kept as the rational it
    denotes. *)
Inductive value : Type :=
| VNil
| VBool (b : bool)
| VFloat64 (f : Q)
| VString (s : string)
| VSlice (l : list value)
| VMap (m : gmap string value).

(** The integer part of a [float64]: the fraction is discarded. *)
Definition truncate (f : Q) : Z := Z.quot (Qnum f) (Z.pos (Qden f)).

(** When the integer part of [f] does not fit an [int], Go leaves the
    result of [int(f)] to the implementation; [out_of_range_int f] is what
    the implementation at hand gives then. *)
Class IntConversion : Type := out_of_range_int : Q -> Z.

(** The conversion [int(f)] of a [float64]: its integer part when that
    fits an [int], and what the implementation gives when it does not. *)
Definition int_of_float64 {Conversion : IntConversion} (f : Q) : Z :=
  if (- 2 ^ 63 <=? truncate f) && (truncate f <? 2 ^ 63) then truncate f
  else out_of_range_int f.

Record ApiErrorResponse : Type := mkApiErrorResponse {
  Name : string;
  Code : Z;
  Http : Z;
  Message : string;
  Ts : string;
  Version : string;
  Op : string;
  Tenant : string;
  Path : string;
  ErrParams : gmap string string;
  ConnInfo : gmap string string;
  ClientId : string;
  ClientType : string;
  Id : Z;
  TenancyClass : string;
  Errors : list string;
}.

(** [&ApiErrorResponse{}] *)
Definition new_ApiErrorResponse : ApiErrorResponse :=
  mkApiErrorResponse "" 0 0 "" "" "" "" "" "" ∅ ∅ "" "" 0 "" [].

(** [eresp.Http = code] *)
Definition set_Http (code : Z) (e : ApiErrorResponse) : ApiErrorResponse :=
  mkApiErrorResponse (Name e) (Code e) code (Message e) (Ts e) (Version e) (Op e)
    (Tenant e) (Path e) (ErrParams e) (ConnInfo e) (ClientId e) (ClientType e)
    (Id e) (TenancyClass e) (Errors e).

Record ApiLogin : Type := mkApiLogin {
  Key : string;
  LoginVersion : string;
  LoginReqTime : Z;
}.

(** [&ApiLogin{}] *)
Definition new_ApiLogin : ApiLogin := mkApiLogin "" "" 0.

(** The list envelope. A [nil] slice or map and an empty one are not told
    apart: the code only takes their length, reads and appends. *)
Record ApiListOuter : Type := mkApiListOuter {
  Data : list value;
  ListVersion : string;
  Metadata : gmap string value;
  ListReqTime : Z;
  ListTenant : string;
  ListPath : string;
}.

(** [&ApiListOuter{}] *)
Definition new_ApiListOuter : ApiListOuter := mkApiListOuter [] "" ∅ 0 "" "".

(** [rs.Data = data] *)
Definition set_Data (data : list value) (rs : ApiListOuter) : ApiListOuter :=
  mkApiListOuter data (ListVersion rs) (Metadata rs) (ListReqTime rs)
    (ListTenant rs) (ListPath rs).

(** [greq.RequestOptions], cut down to what a request carries to the
    appliance: the query parameters, the headers, the form data ([Data]
    in the source) and the JSON payload. The source's [do] also assigns
    [HTTPClient], [Context] and [BeforeRequest] of the caller's options
    (the client of the connection, the context of the call, a logging
    hook); these three fields, like the context and the logger, are not
    part of this model, and nothing below speaks of them. *)
Record RequestOptions : Type := mkRequestOptions {
  Params : option (gmap string string);
  Headers : option (gmap string string);
  FormData : option (gmap string string);
  JSON : option value;
}.

(** [&greq.RequestOptions{}] *)
Definition new_RequestOptions : RequestOptions := mkRequestOptions None None None None.

Definition set_Params (p : option (gmap string string)) (ro : RequestOptions)
  : RequestOptions :=
  mkRequestOptions p (Headers ro) (FormData ro) (JSON ro).

Definition set_Headers (h : option (gmap string string)) (ro : RequestOptions)
  : RequestOptions :=
  mkRequestOptions (Params ro) h (FormData ro) (JSON ro).

(** [ro.Headers[k] = v]; the source only does so on a map it has made. *)
Definition set_Header (k v : string) (ro : RequestOptions) : RequestOptions :=
  set_Headers (Some (<[k := v]> (default ∅ (Headers ro)))) ro.

(** The mutable and fixed fields of [ApiConnection] (the lock and the HTTP
    client are left out). *)
Record ApiConnection : Type := mkApiConnection {
  username : string;
  password : string;
  apiVersion : string;
  tenant : string;
  secure : bool;
  ldap : string;
  apikey : string;
  baseUrl : string;
}.

Definition set_apikey (k : string) (c : ApiConnection) : ApiConnection :=
  mkApiConnection (username c) (password c) (apiVersion c) (tenant c) (secure c)
    (ldap c) k (baseUrl c).

(** One request as the transport receives it. *)
Record Request : Type := mkRequest {
  req_method : string;
  req_base : string;
  req_path : string;
  req_options : RequestOptions;
}.

(** What a run does to the outside, newest first. *)
Inductive Event : Type :=
| EvRequest (r : Request)
| EvSleep (seconds : Z).

(* ===================================================================== *)
(** ** The world: transport, clock and session *)
(* ===================================================================== *)

Section Client.

(** The raw body of an HTTP response. How [encoding/json] decodes it into a
    holder is a parameter of the development ([Unmarshal]). *)
Variable Body : Type.

(** [greq.Response], as far as the package reads it. *)
Record Response : Type := mkResponse {
  Ok : bool;
  StatusCode : Z;
  RawBody : Body;
}.

(** [resp.JSON(holder)]: decoding writes into the holder it is given, and
    may fail after having written part of it. *)
Class Unmarshal (R : Type) : Type :=
  resp_JSON : Response -> R -> R * option error.

Context {Unmarshal_ApiErrorResponse : Unmarshal ApiErrorResponse}.
Context {Unmarshal_ApiLogin : Unmarshal ApiLogin}.

(** What the transport answers to one request: the time the request took
    (whole seconds), the response, and the message of the transport error
    if there was one. *)
Record Reply : Type := mkReply {
  elapsed : N;
  reply_resp : Response;
  reply_err : option string;
}.

(** The state a call runs in: the connection it is invoked on, the clock
    ([time.Now().Unix()]), the answers the transport will give (the [n]-th
    request is answered by [replies n]), the number of requests made so
    far, and the trace of requests and sleeps. *)
Record World : Type := mkWorld {
  conn : ApiConnection;
  now : Z;
  replies : nat -> Reply;
  issued : nat;
  trace : list Event;
}.

Definition set_conn (c : ApiConnection) (w : World) : World :=
  mkWorld c (now w) (replies w) (issued w) (trace w).

(** [time.Sleep(time.Second * d)] *)
Definition Sleep (d : Z) (w : World) : World :=
  mkWorld (conn w) (now w + d) (replies w) (issued w) (EvSleep d :: trace w).

(** [greq.DoRegularRequest(method, gurl.String(), ro)], where [gurl] is
    the base URL with [url] joined to its path. *)
Definition DoRegularRequest (method url : string) (ro : RequestOptions) (w : World)
  : Response * option error * World :=
  let r := replies w (issued w) in
  (reply_resp r, ErrOther <$> reply_err r,
   mkWorld (conn w) (now w + Z.of_N (elapsed r)) (replies w) (S (issued w))
     (EvRequest (mkRequest method (baseUrl (conn w)) url ro) :: trace w)).

(* ===================================================================== *)
(** ** The error classifier *)
(* ===================================================================== *)

(** [func translateErrors(ctxt, resp, err)], returning the API error and
    the error. *)
Definition translateErrors (resp : Response) (err : option error)
  : option ApiErrorResponse * option error :=
  match err with
  | Some e =>
      if strings_Contains (Error e) "connect: connection refused"
      then (None, badStatus ConnectionError)
      else (None, Some e)
  | None =>
      if negb (Ok resp) then
        let eresp := (resp_JSON resp new_ApiErrorResponse).1 in
        let eresp :=
          if Http eresp =? 0 then set_Http (StatusCode resp) eresp else eresp in
        (Some eresp, badStatus (StatusCode resp))
      else (None, None)
  end.

(* ===================================================================== *)
(** ** The session and the request pipeline *)
(* ===================================================================== *)

(** [func (c *ApiConnection) hasLoggedIn() bool] *)
Definition hasLoggedIn (w : World) : bool :=
  negb (String.eqb (apikey (conn w)) "").

(** [func (c *ApiConnection) Logout()] *)
Definition Logout (w : World) : World :=
  set_conn (set_apikey "" (conn w)) w.

(** The request options [Login] builds: the credentials as form data. *)
Definition login_options (c : ApiConnection) : RequestOptions :=
  let data : gmap string string :=
    <["password" := password c]> (<["name" := username c]> ∅) in
  let data :=
    if negb (String.eqb (ldap c) "") then <["remote_server" := ldap c]> data
    else data in
  mkRequestOptions None None (Some data) None.

(** [do], [retry] and [Login] call one another; [fuel] bounds the depth of
    calls and the number of turns of [retry]'s loop. Each returns, beside
    its Go results, the request options and the holder as the call left
    them (both are pointers in the source) and the new world.

    - [do fuel R U method url ro rs retry' sensitive allowLogin w] is
      [c.do(ctxt, method, url, ro, rs, retry, sensitive, allowLogin)];
      [sensitive] only affects what is logged.
    - [retry_loop] is the [for] loop of [retry], entered with the time
      [t1] of the first turn and the current [backoff]. The loop declares
      its own [apiresp], so the one [retry] returns after the loop is the
      outer variable, which is never assigned. *)
Fixpoint do (fuel : nat) (R : Type) (U : Unmarshal R) (method url : string)
    (ro : RequestOptions) (rs : R) (retry' sensitive allowLogin : bool) (w : World)
    {struct fuel}
  : outcome (option ApiErrorResponse * option error * RequestOptions * R * World) :=
  match fuel with
  | O => OutOfFuel
  | S fuel =>
      let ro := set_Header "Datera-Driver" DateraDriver ro in
      let '(resp, err, w) := DoRegularRequest method url ro w in
      let '(eresp, err) := translateErrors resp err in
      if bool_decide (err = badStatus PermissionDenied) then
        if allowLogin && hasLoggedIn w then
          let w := Logout w in
          '(apiresp, err2, w) ← Login fuel w;
          if bool_decide (apiresp ≠ None) || bool_decide (err2 ≠ None) then
            Done (apiresp, err2, ro, rs, w)
          else
            let ro := set_Header "Auth-Token" (apikey (conn w)) ro in
            do fuel R U method url ro rs (negb canRetry) sensitive allowLogin w
        else
          Done (eresp, None, ro, rs, w)
      else if retry' && (bool_decide (err = badStatus Retry503)
                         || bool_decide (err = badStatus ConnectionError)) then
        retry fuel R U method url ro rs sensitive allowLogin w
      else if bool_decide (eresp ≠ None) then
        Done (eresp, None, ro, rs, w)
      else if bool_decide (err ≠ None) then
        Done (None, err, ro, rs, w)
      else
        let '(rs, err) := resp_JSON resp rs in
        if bool_decide (err ≠ None) then Done (None, err, ro, rs, w)
        else Done (None, None, ro, rs, w)
  end

with retry (fuel : nat) (R : Type) (U : Unmarshal R) (method url : string)
    (ro : RequestOptions) (rs : R) (sensitive allowLogin : bool) (w : World)
    {struct fuel}
  : outcome (option ApiErrorResponse * option error * RequestOptions * R * World) :=
  match fuel with
  | O => OutOfFuel
  | S fuel =>
      let t1 := now w in
      let backoff := 1 in
      retry_loop fuel R U method url ro rs sensitive allowLogin t1 backoff w
  end

with retry_loop (fuel : nat) (R : Type) (U : Unmarshal R) (method url : string)
    (ro : RequestOptions) (rs : R) (sensitive allowLogin : bool) (t1 backoff : Z)
    (w : World) {struct fuel}
  : outcome (option ApiErrorResponse * option error * RequestOptions * R * World) :=
  match fuel with
  | O => OutOfFuel
  | S fuel =>
      if now w - t1 <? RetryTimeout then
        '(apiresp, err, ro, rs, w) ←
          do fuel R U method url ro rs (negb canRetry) sensitive allowLogin w;
        if bool_decide (apiresp = None) && bool_decide (err = None) then
          Done (None, None, ro, rs, w)
        else if match apiresp with
                | Some a => negb (Http a =? 503)
                | None => false
                end then
          Done (apiresp, None, ro, rs, w)
        else if match err with
                | Some e =>
                    negb (strings_Contains (Error e) "connect: connection refused")
                | None => false
                end then
          Done (None, err, ro, rs, w)
        else
          let w := Sleep (backoff * backoff) w in
          retry_loop fuel R U method url ro rs sensitive allowLogin t1 (backoff + 1) w
      else
        Done (None, Some ErrRetryTimeout, ro, rs, w)
  end

with Login (fuel : nat) (w : World) {struct fuel}
  : outcome (option ApiErrorResponse * option error * World) :=
  match fuel with
  | O => OutOfFuel
  | S fuel =>
      if negb (String.eqb (apikey (conn w)) "") then Done (None, None, w)
      else
        let login := new_ApiLogin in
        let ro := login_options (conn w) in
        '(apiresp, err, _, login, w) ←
          do fuel ApiLogin Unmarshal_ApiLogin "PUT" "login" ro login
             canRetry isSensitive (negb allowLogin) w;
        let denied :=
          match apiresp with
          | Some a => Http a =? PermissionDenied
          | None => false
          end
          || bool_decide (err = badStatus PermissionDenied) in
        let w :=
          if denied then set_conn (set_apikey "" (conn w)) w
          else set_conn (set_apikey (Key login) (conn w)) w in
        Done (apiresp, err, w)
  end.

(** [func (c *ApiConnection) doWithAuth(ctxt, method, url, ro, rs)]. The
    options returned are the caller's: [nil] stays [nil]. *)
Definition doWithAuth (fuel : nat) (R : Type) (U : Unmarshal R) (method url : string)
    (ro : option RequestOptions) (rs : R) (w : World)
  : outcome (option ApiErrorResponse * option error * option RequestOptions * R * World) :=
  let ro' := default new_RequestOptions ro in
  let authed (w : World) :=
    let headers : gmap string string :=
      <["Auth-Token" := apikey (conn w)]> (<["tenant" := tenant (conn w)]> ∅) in
    let ro' := set_Headers (Some headers) ro' in
    '(apiresp, err, ro', rs, w) ←
      do fuel R U method url ro' rs canRetry (negb isSensitive) allowLogin w;
    Done (apiresp, err, (fun _ => ro') <$> ro, rs, w) in
  if negb (hasLoggedIn w) then
    '(apierr, err, w) ← Login fuel w;
    if bool_decide (apierr ≠ None) || bool_decide (err ≠ None) then
      Done (apierr, err, ro, rs, w)
    else authed w
  else authed w.

(** Names for what one attempt does, used to state its properties: the
    reply the transport gives next, the options as [do] sends them, the
    world once the request is answered, and the API error decoded from a
    response. *)
Definition next_reply (w : World) : Reply := replies w (issued w).

Definition sent (ro : RequestOptions) : RequestOptions :=
  set_Header "Datera-Driver" DateraDriver ro.

Definition answered (method url : string) (ro : RequestOptions) (w : World) : World :=
  (DoRegularRequest method url (sent ro) w).2.

Definition api_error (resp : Response) : ApiErrorResponse :=
  let eresp := (resp_JSON resp new_ApiErrorResponse).1 in
  if Http eresp =? 0 then set_Http (StatusCode resp) eresp else eresp.

(* ===================================================================== *)
(** ** The list paginator *)
(* ===================================================================== *)

Context {Unmarshal_ApiListOuter : Unmarshal ApiListOuter}.
Context {Conversion : IntConversion}.

(** [rs.Metadata["total_count"].(float64)]: the type assertion panics
    unless the key holds a [float64]. *)
Definition total_count (rs : ApiListOuter) : outcome Q :=
  match Metadata rs !! "total_count" with
  | Some (VFloat64 f) => Done f
  | _ => Panic "interface conversion: interface {} is not float64"
  end.

(** The options of the next page: [offset] is written into the caller's
    parameters, or into a fresh map when the caller gave none. *)
Definition page_options (offset : Z) (ro : RequestOptions) : RequestOptions :=
  match Params ro with
  | None => set_Params (Some (ToMap (mkListParams "" 0 "" offset))) ro
  | Some p => set_Params (Some (<["offset" := strconv_FormatInt offset 10]> p)) ro
  end.

(** The [for] loop of [GetList]. [ldata] and the outer [tcnt] are the two
    sides of the loop condition; neither is assigned in the loop (the
    body declares a [tcnt] of its own). [apiresp0] and [err0] are the outer
    [apiresp] and [err], which the loop also shadows. One unit of fuel is
    one turn of the loop. *)
Fixpoint GetList_loop (fuel : nat) (url : string) (ro : RequestOptions)
    (rs : ApiListOuter) (data : list value) (offset ldata tcnt0 : Z)
    (apiresp0 : option ApiErrorResponse) (err0 : option error) (w : World)
  : outcome (ApiListOuter * option ApiErrorResponse * option error * World) :=
  match fuel with
  | O => OutOfFuel
  | S fuel =>
      if negb (ldata =? tcnt0) then
        f ← total_count rs;
        let tcnt := int_of_float64 f in
        let offset := offset + Z.of_nat (length (Data rs)) in
        if tcnt <=? offset then
          Done (set_Data data rs, apiresp0, err0, w)
        else
          let ro := page_options offset ro in
          let rs := set_Data [] rs in
          '(apiresp, err, ro', rs, w) ←
            doWithAuth fuel ApiListOuter Unmarshal_ApiListOuter "GET" url (Some ro) rs w;
          if bool_decide (apiresp ≠ None) || bool_decide (err ≠ None) then
            Done (set_Data data rs, apiresp, err, w)
          else
            GetList_loop fuel url (default ro ro') rs (data ++ Data rs)
              offset ldata tcnt0 apiresp0 err0 w
      else
        Done (set_Data data rs, apiresp0, err0, w)
  end.

(** [func (c *ApiConnection) GetList(ctxt, url, ro)], returning the list
    envelope, the API error and the error. *)
Definition GetList (fuel : nat) (url : string) (ro : option RequestOptions) (w : World)
  : outcome (ApiListOuter * option ApiErrorResponse * option error * World) :=
  let rs := new_ApiListOuter in
  '(apiresp, err, ro, rs, w) ←
    doWithAuth fuel ApiListOuter Unmarshal_ApiListOuter "GET" url ro rs w;
  if bool_decide (apiresp = None) && (0 <? Z.of_nat (size (Metadata rs))) then
    match ro with
    | None => Panic "invalid memory address or nil pointer dereference"
    | Some ro =>
        lp ← ListParamsFromMap (default ∅ (Params ro));
        if negb (Limit lp =? 0) || negb (Offset lp =? 0) then
          Done (rs, apiresp, err, w)
        else
          let data := Data rs in
          let offset := 0 in
          let tcnt := 0 in
          GetList_loop fuel url ro rs data offset (Z.of_nat (length data)) tcnt
            apiresp err w
    end
  else Done (rs, apiresp, err, w).

(** Names used to state the paginator's properties. [with_auth w ro] is
    [ro] with the headers [doWithAuth] gives it. A reply serves the page
    [q] of a list of [total] items when it is a success whose body decodes,
    into any holder, to the items [q] and to metadata holding [total]
    under [total_count]. [offset_sent r] is the [offset] parameter of a
    request, and [page_offsets start qs] are the offsets at which the pages
    [qs] start when the first of them starts at [start]. *)
Definition with_auth (w : World) (ro : RequestOptions) : RequestOptions :=
  set_Headers
    (Some (<["Auth-Token" := apikey (conn w)]> (<["tenant" := tenant (conn w)]> ∅))) ro.

Definition serves_page (r : Reply) (q : list value) (total : Q) : Prop :=
  reply_err r = None /\ Ok (reply_resp r) = true /\
  forall holder : ApiListOuter,
    (resp_JSON (reply_resp r) holder).2 = None /\
    Data (resp_JSON (reply_resp r) holder).1 = q /\
    Metadata (resp_JSON (reply_resp r) holder).1 !! "total_count"
    = Some (VFloat64 total).

(** A reply makes a fetch fail with [(apiresp, err)], in one request, when
    it is a failure status that is neither a denial nor retryable, decoded
    to [apiresp]; or a transport error, other than a refused connection,
    that is [err]; or a success whose body does not decode, [err] being
    the error of the decoder. *)
Definition fails_with (r : Reply) (apiresp : option ApiErrorResponse)
    (err : option error) : Prop :=
  (reply_err r = None /\ Ok (reply_resp r) = false /\
   StatusCode (reply_resp r) <> 401 /\ StatusCode (reply_resp r) <> 503 /\
   StatusCode (reply_resp r) <> 9998 /\
   apiresp = Some (api_error (reply_resp r)) /\ err = None) \/
  (exists msg,
     reply_err r = Some msg /\
     strings_Contains msg "connect: connection refused" = false /\
     apiresp = None /\ err = Some (ErrOther msg)) \/
  (reply_err r = None /\ Ok (reply_resp r) = true /\
   apiresp = None /\ err <> None /\
   forall holder : ApiListOuter, (resp_JSON (reply_resp r) holder).2 = err).

(** The fetch of a page fails with [(apiresp, err)] once the transport
    [answers] has been asked [n] times: called for a page in any such
    world, on a connection that holds a token, [doWithAuth] returns that
    failure, whatever the options and the holder. The fetch may take
    several requests (it may be retried, or renew the session). *)
Definition fetch_fails (fuel : nat) (url : string) (answers : nat -> Reply) (n : nat)
    (apiresp : option ApiErrorResponse) (err : option error) : Prop :=
  (apiresp <> None \/ err <> None) /\
  forall ro (rs : ApiListOuter) w,
    hasLoggedIn w = true -> replies w = answers -> issued w = n ->
    exists opts rs' w',
      doWithAuth fuel ApiListOuter Unmarshal_ApiListOuter "GET" url (Some ro) rs w
      = Done (apiresp, err, opts, rs', w').

End Client.

Arguments mkResponse {Body} Ok StatusCode RawBody.
Arguments Ok {Body} r.
Arguments StatusCode {Body} r.
Arguments RawBody {Body} r.
Arguments resp_JSON {Body R Unmarshal} resp holder.
Arguments mkReply {Body} elapsed reply_resp reply_err.
Arguments elapsed {Body} r.
Arguments reply_resp {Body} r.
Arguments reply_err {Body} r.
Arguments mkWorld {Body} conn now replies issued trace.
Arguments conn {Body} w.
Arguments now {Body} w.
Arguments replies {Body} w.
Arguments issued {Body} w.
Arguments trace {Body} w.
Arguments set_conn {Body} c w.
Arguments Sleep {Body} d w.
Arguments DoRegularRequest {Body} method url ro w.
Arguments translateErrors {Body Unmarshal_ApiErrorResponse} resp err.
Arguments hasLoggedIn {Body} w.
Arguments Logout {Body} w.
Arguments do {Body Unmarshal_ApiErrorResponse Unmarshal_ApiLogin} fuel {R U}
  method url ro rs retry' sensitive allowLogin w.
Arguments retry {Body Unmarshal_ApiErrorResponse Unmarshal_ApiLogin} fuel {R U}
  method url ro rs sensitive allowLogin w.
Arguments retry_loop {Body Unmarshal_ApiErrorResponse Unmarshal_ApiLogin} fuel {R U}
  method url ro rs sensitive allowLogin t1 backoff w.
Arguments Login {Body Unmarshal_ApiErrorResponse Unmarshal_ApiLogin} fuel w.
Arguments doWithAuth {Body Unmarshal_ApiErrorResponse Unmarshal_ApiLogin} fuel {R U}
  method url ro rs w.
Arguments next_reply {Body} w.
Arguments answered {Body} method url ro w.
Arguments api_error {Body Unmarshal_ApiErrorResponse} resp.
Arguments with_auth {Body} w ro.
Arguments serves_page {Body Unmarshal_ApiListOuter} r q total.
Arguments fails_with {Body Unmarshal_ApiErrorResponse Unmarshal_ApiListOuter}
  r apiresp err.
Arguments fetch_fails
  {Body Unmarshal_ApiErrorResponse Unmarshal_ApiLogin Unmarshal_ApiListOuter}
  fuel url answers n apiresp err.
Arguments GetList_loop
  {Body Unmarshal_ApiErrorResponse Unmarshal_ApiLogin Unmarshal_ApiListOuter Conversion}
  fuel url ro rs data offset ldata tcnt0 apiresp0 err0 w.
Arguments GetList
  {Body Unmarshal_ApiErrorResponse Unmarshal_ApiLogin Unmarshal_ApiListOuter Conversion}
  fuel url ro w.

(* ===================================================================== *)
(** ** The four verbs *)
(* ===================================================================== *)

(** The envelope of a single resource. *)
Record ApiOuter : Type := mkApiOuter {
  OuterData : gmap string value;
  OuterVersion : string;
  OuterMetadata : gmap string value;
  OuterReqTime : Z;
  OuterTenant : string;
  OuterPath : string;
}.

(** [&ApiOuter{}] *)
Definition new_ApiOuter : ApiOuter := mkApiOuter ∅ "" ∅ 0 "" "".

Section Verbs.

Context {Body : Type}.
Context {Unmarshal_ApiErrorResponse : Unmarshal Body ApiErrorResponse}.
Context {Unmarshal_ApiLogin : Unmarshal Body ApiLogin}.
Context {Unmarshal_ApiOuter : Unmarshal Body ApiOuter}.

(** What [Get], [Put], [Post] and [Delete] share: a fresh envelope, one
    call of [doWithAuth] with the verb's method, and the envelope returned
    with the two results. *)
Definition verb (method : string) (fuel : nat) (url : string)
    (ro : option RequestOptions) (w : World Body)
  : outcome (ApiOuter * option ApiErrorResponse * option error * World Body) :=
  let rs := new_ApiOuter in
  '(apiresp, err, _, rs, w) ← doWithAuth fuel method url ro rs w;
  Done (rs, apiresp, err, w).

(** [func (c *ApiConnection) Get(ctxt, url, ro)] *)
Definition Get := verb "GET".

(** [func (c *ApiConnection) Put(ctxt, url, ro)] *)
Definition Put := verb "PUT".

(** [func (c *ApiConnection) Post(ctxt, url, ro)] *)
Definition Post := verb "POST".

(** [func (c *ApiConnection) Delete(ctxt, url, ro)] *)
Definition Delete := verb "DELETE".

End Verbs.

(* ===================================================================== *)
(** ** What a call may change *)
(* ===================================================================== *)

(** The request options [ro'] carry the query parameters, the form data
    and the JSON payload of [ro]. *)
Definition same_request (ro ro' : RequestOptions) : Prop :=
  Params ro' = Params ro /\ FormData ro' = FormData ro /\ JSON ro' = JSON ro.

(** The header a request carries under a name, if any. *)
Definition header (name : string) (r : Request) : option string :=
  Headers (req_options r) ≫= (fun h : gmap string string => h !! name).

(** An event of a call of this package: a request names the driver, and is
    addressed to the base URL of the connection. *)
Definition driver_event (base : string) (ev : Event) : Prop :=
  match ev with
  | EvRequest r => header "Datera-Driver" r = Some DateraDriver /\ req_base r = base
  | EvSleep d => 0 <= d
  end.

(** The number of requests among some events. *)
Definition count_requests (evs : list Event) : nat :=
  length (omap (fun e => match e with EvRequest r => Some r | EvSleep _ => None end) evs).

(** The world [w'] comes after [w]: the transport is the same and has
    answered the requests made in between, the clock has not gone back,
    the connection is the same but for its token, and the trace has grown
    by events of this package. *)
Definition comes_after {Body : Type} (w w' : World Body) : Prop :=
  replies w' = replies w /\
  now w <= now w' /\
  set_apikey "" (conn w') = set_apikey "" (conn w) /\
  exists evs : list Event,
    trace w' = (evs ++ trace w)%list /\
    Forall (driver_event (baseUrl (conn w))) evs /\
    issued w' = (issued w + count_requests evs)%nat.

(** The options [doWithAuth] hands back are the caller's own: none when
    the caller gave none, else options that carry the caller's query
    parameters, form data and JSON payload. *)
Definition handed_back (ro opts : option RequestOptions) : Prop :=
  match ro with
  | Some r => exists r', opts = Some r' /\ same_request r r'
  | None => opts = None
  end.

(** The squares [b^2, (b+1)^2, ...], [k] of them: the sleeps of [k] turns
    of the retry loop that starts with back-off [b]. *)
Fixpoint squares (backoff : Z) (k : nat) : list Z :=
  match k with
  | O => []
  | S k => backoff * backoff :: squares (backoff + 1) k
  end.

(** The seconds the transport takes for [k] requests, from the [n]-th on. *)
Fixpoint waited {Body : Type} (answers : nat -> Reply Body) (n k : nat) : Z :=
  match k with
  | O => 0
  | S k => Z.of_N (elapsed (answers n)) + waited answers (S n) k
  end.

(** The sum of a list of numbers. *)
Definition total (l : list Z) : Z := foldr Z.add 0 l.

(** A reply the retry loop retries on: a failure, other than a denial,
    whose API error has 503 in its [Http] field. *)
Definition unavailable {Body : Type} {UE : Unmarshal Body ApiErrorResponse}
    (r : Reply Body) : Prop :=
  reply_err r = None /\ Ok (reply_resp r) = false /\
  StatusCode (reply_resp r) <> 401 /\ Http (api_error (reply_resp r)) = 503.

(* ===================================================================== *)
(** ** A scripted appliance *)
(* ===================================================================== *)

(** Bodies for the scenarios below: an error envelope, a login response, a
    list envelope, or no JSON at all. *)
Inductive Payload : Type :=
| PError (e : ApiErrorResponse)
| PLogin (l : ApiLogin)
| PList (data : list value) (metadata : gmap string value)
| PNone.

Definition unexpected_end : error := ErrOther "unexpected end of JSON input".

(** Decoding a payload into each holder: the envelope of the holder's kind
    fills it in, a JSON object of another kind leaves it as it was, and a
    body that is no JSON is an error. A list envelope replaces [Data] and
    adds its metadata to the holder's. *)
#[global] Instance Payload_ApiErrorResponse : Unmarshal Payload ApiErrorResponse :=
  fun resp holder =>
    match RawBody resp with
    | PError e => (e, None)
    | PNone => (holder, Some unexpected_end)
    | _ => (holder, None)
    end.

#[global] Instance Payload_ApiLogin : Unmarshal Payload ApiLogin :=
  fun resp holder =>
    match RawBody resp with
    | PLogin l => (l, None)
    | PNone => (holder, Some unexpected_end)
    | _ => (holder, None)
    end.

#[global] Instance Payload_ApiListOuter : Unmarshal Payload ApiListOuter :=
  fun resp holder =>
    match RawBody resp with
    | PList data metadata =>
        (mkApiListOuter data (ListVersion holder) (metadata ∪ Metadata holder)
           (ListReqTime holder) (ListTenant holder) (ListPath holder), None)
    | PNone => (holder, Some unexpected_end)
    | _ => (holder, None)
    end.

(** None of the payloads is the envelope of a single resource: decoded
    into one, a JSON object leaves it as it was. *)
#[global] Instance Payload_ApiOuter : Unmarshal Payload ApiOuter :=
  fun resp holder =>
    match RawBody resp with
    | PNone => (holder, Some unexpected_end)
    | _ => (holder, None)
    end.

(** The conversion of amd64, the platform of the scenarios: a [float64]
    whose integer part does not fit becomes the least [int]. *)
#[global] Instance amd64 : IntConversion := fun _ => - 2 ^ 63.

(** A response with a failure status and an error envelope that carries
    no field at all. *)
Definition failure (status : Z) : Reply Payload :=
  mkReply 0%N (mkResponse false status (PError new_ApiErrorResponse)) None.

(** The transport could not connect. *)
Definition refused : Reply Payload :=
  mkReply 0%N (mkResponse false 0 PNone)
    (Some "dial tcp 10.0.0.1:7717: connect: connection refused").

(** A successful login handing out [key]. *)
Definition login_ok (key : string) : Reply Payload :=
  mkReply 0%N (mkResponse true 200 (PLogin (mkApiLogin key "" 0))) None.

(** A successful page of a list with the given metadata. *)
Definition page (data : list value) (metadata : gmap string value) : Reply Payload :=
  mkReply 0%N (mkResponse true 200 (PList data metadata)) None.

(** The metadata [{total_count: n}]. *)
Definition counted (n : Z) : gmap string value :=
  {["total_count" := VFloat64 (inject_Z n)]}.

(** The items numbered [from], [from + 1], ..., [from + n - 1]. *)
Definition items (from n : nat) : list value :=
  (fun i => VFloat64 (inject_Z (Z.of_nat i))) <$> seq from n.

(** The transport that answers with [rs] in turn, and with [last] ever
    after. *)
Definition script (rs : list (Reply Payload)) (last : Reply Payload) : nat -> Reply Payload :=
  fun n => nth n rs last.

Definition connection (key : string) : ApiConnection :=
  mkApiConnection "admin" "password" "2.2" "/root" false "" key
    "http://10.0.0.1:7717/v2.2".

(** A world at time 0 with an empty trace, on a connection holding [key]. *)
Definition world (key : string) (answers : nat -> Reply Payload) : World Payload :=
  mkWorld (connection key) 0 answers 0%nat [].

(** The sleeps of a trace, oldest first. *)
Definition sleeps (t : list Event) : list Z :=
  rev (omap (fun e => match e with EvSleep d => Some d | EvRequest _ => None end) t).

(** The requests of a trace, oldest first. *)
Definition requests (t : list Event) : list Request :=
  rev (omap (fun e => match e with EvRequest r => Some r | EvSleep _ => None end) t).

(** The [offset] parameter of a request (empty when there is none). *)
Definition offset_sent (r : Request) : string :=
  index (default ∅ (Params (req_options r))) "offset".

(** The offsets at which the pages [qs] start, the first at [start]. *)
Fixpoint page_offsets (start : Z) (qs : list (list value)) : list Z :=
  match qs with
  | [] => []
  | q :: qs => start :: page_offsets (start + Z.of_nat (length q)) qs
  end.

(** An appliance that denies every request and accepts every login: the
    requests made on a connection that holds a token are a call, a login,
    the replay of the call, a login, and so on. *)
Definition denies_calls : nat -> Reply Payload :=
  fun n => if Nat.even n then failure 401 else login_ok "fresh-key".

(** The method and path of each request of a trace, oldest first. *)
Definition calls (t : list Event) : list (string * string) :=
  (fun r => (req_method r, req_path r)) <$> requests t.

(* ===================================================================== *)
(** * Properties *)
(* ===================================================================== *)

(** ** [strconv]: what [FormatInt] writes, [ParseInt] reads back *)

(** The bounds of the 64-bit types as numerals, for [lia]. *)
Ltac bounds :=
  unfold is_int, maxUint64 in *;
  change (2 ^ 64) with 18446744073709551616 in *;
  change (2 ^ 63) with 9223372036854775808 in *.

Lemma byte_chr (z : Z) : 0 <= z < 256 -> byte (chr z) = z.
Proof.
  intros Hz. unfold byte, chr.
  rewrite N_ascii_embedding by lia. lia.
Qed.

Lemma byte_digit_char (d : Z) : 0 <= d < 10 -> byte (digit_char d) = 48 + d.
Proof.
  intros Hd. unfold digit_char.
  destruct (Z.ltb_spec d 10); [|lia]. apply byte_chr. lia.
Qed.

Lemma string_app_nil_r (s : string) : s +:+ EmptyString = s.
Proof.
  induction s as [|c s IH]; [reflexivity|].
  change (String c (s +:+ EmptyString) = String c s). by f_equal.
Qed.

Lemma string_app_assoc (s1 s2 s3 : string) :
  (s1 +:+ s2) +:+ s3 = s1 +:+ (s2 +:+ s3).
Proof.
  induction s1 as [|c s1 IH]; [reflexivity|].
  change (String c ((s1 +:+ s2) +:+ s3) = String c (s1 +:+ (s2 +:+ s3))). by f_equal.
Qed.

(** One turn of [ParseUint]'s loop on a decimal digit. *)
Lemma parseUint_loop_digit (d n : Z) (s : string) (underscores : bool) :
  0 <= d < 10 -> 0 <= n -> n * 10 + d <= maxUint64 ->
  parseUint_loop 10 true (maxUint64 / 10 + 1) (2 ^ IntSize - 1)
    (String (digit_char d) s) n underscores
  = parseUint_loop 10 true (maxUint64 / 10 + 1) (2 ^ IntSize - 1) s (n * 10 + d)
      underscores.
Proof.
  intros Hd Hn Hmax. cbn [parseUint_loop].
  rewrite byte_digit_char by done.
  assert (Hcut : maxUint64 / 10 + 1 = 1844674407370955162) by reflexivity.
  assert (Hval : 2 ^ IntSize - 1 = maxUint64) by reflexivity.
  rewrite Hcut, Hval. unfold maxUint64 in *.
  replace (48 + d =? 95) with false by (symmetry; apply Z.eqb_neq; lia).
  cbn [andb].
  replace (48 <=? 48 + d) with true by (symmetry; apply Z.leb_le; lia).
  replace (48 + d <=? 57) with true by (symmetry; apply Z.leb_le; lia).
  cbn [andb].
  replace (48 + d - 48) with d by lia.
  replace (10 <=? d) with false by (symmetry; apply Z.leb_gt; lia).
  replace (1844674407370955162 <=? n) with false by (symmetry; apply Z.leb_gt; lia).
  replace (2 ^ 64 - 1 <? n * 10 + d) with false by (symmetry; apply Z.ltb_ge; lia).
  reflexivity.
Qed.

(** The loop reads the digits [formatBits] wrote as the number they were
    written from. *)
Lemma parseUint_loop_formatBits (fuel : nat) :
  forall (u : Z) (s : string) (underscores : bool),
    0 <= u < 2 ^ Z.of_nat fuel -> u <= maxUint64 ->
    parseUint_loop 10 true (maxUint64 / 10 + 1) (2 ^ IntSize - 1)
      (formatBits fuel u 10 +:+ s) 0 underscores
    = parseUint_loop 10 true (maxUint64 / 10 + 1) (2 ^ IntSize - 1) s u underscores.
Proof.
  induction fuel as [|fuel IH]; intros u s underscores Hu Hmax.
  - change (2 ^ Z.of_nat 0) with 1 in Hu. by replace u with 0 by lia.
  - cbn [formatBits]. destruct (Z.ltb_spec u 10) as [Hlt|Hge].
    + change (String (digit_char u) EmptyString +:+ s) with (String (digit_char u) s).
      rewrite parseUint_loop_digit by lia. f_equal.
    + rewrite string_app_assoc.
      change (String (digit_char (u mod 10)) EmptyString +:+ s)
        with (String (digit_char (u mod 10)) s).
      assert (Hpow : 2 ^ Z.of_nat (S fuel) = 2 * 2 ^ Z.of_nat fuel).
      { rewrite Nat2Z.inj_succ. apply Z.pow_succ_r. lia. }
      assert (Hdiv : 0 <= u / 10 < 2 ^ Z.of_nat fuel).
      { split; [apply Z.div_pos; lia|]. apply Z.div_lt_upper_bound; lia. }
      assert (Hdm : u = 10 * (u / 10) + u mod 10) by (apply Z.div_mod; lia).
      assert (Hmod : 0 <= u mod 10 < 10) by (apply Z.mod_pos_bound; lia).
      rewrite IH by lia.
      rewrite parseUint_loop_digit by lia.
      f_equal. lia.
Qed.

(** The first digit [formatBits] writes for a positive number is not a
    zero (nor a sign, nor an underscore). *)
Lemma formatBits_head (fuel : nat) :
  forall u : Z, 0 < u < 2 ^ Z.of_nat fuel ->
    exists c s, formatBits fuel u 10 = String c s /\ 49 <= byte c <= 57.
Proof.
  induction fuel as [|fuel IH]; intros u Hu.
  - change (2 ^ Z.of_nat 0) with 1 in Hu. lia.
  - cbn [formatBits]. destruct (Z.ltb_spec u 10) as [Hlt|Hge].
    + eexists _, _. split; [reflexivity|]. rewrite byte_digit_char by lia. lia.
    + assert (Hpow : 2 ^ Z.of_nat (S fuel) = 2 * 2 ^ Z.of_nat fuel).
      { rewrite Nat2Z.inj_succ. apply Z.pow_succ_r. lia. }
      destruct (IH (u / 10)) as (c & s & -> & Hc).
      { split; [apply Z.div_str_pos; lia|]. apply Z.div_lt_upper_bound; lia. }
      eexists _, _. split; [reflexivity|done].
Qed.

Lemma log2_fuel (u : Z) : 0 < u -> 0 < u < 2 ^ Z.of_nat (S (Z.to_nat (Z.log2 u))).
Proof.
  intros Hu. split; [done|].
  rewrite Nat2Z.inj_succ, Z2Nat.id by apply Z.log2_nonneg.
  apply Z.log2_spec. done.
Qed.

(** [ParseUint] with base 0 reads the decimal digits of a positive number
    as that number. *)
Lemma ParseUint_formatBits (u : Z) :
  0 < u <= maxUint64 ->
  strconv_ParseUint (formatBits (S (Z.to_nat (Z.log2 u))) u 10) 0 0 = inl u.
Proof.
  intros [Hpos Hmax].
  destruct (formatBits_head _ u (log2_fuel u Hpos)) as (c & s & Hfmt & Hc).
  pose proof (parseUint_loop_formatBits _ u EmptyString false
                (conj (Z.lt_le_incl _ _ Hpos) (proj2 (log2_fuel u Hpos))) Hmax) as Hloop.
  rewrite string_app_nil_r, Hfmt in Hloop. rewrite Hfmt.
  unfold strconv_ParseUint.
  replace (0 =? 0) with true by reflexivity.
  replace (byte c =? 48) with false by (symmetry; apply Z.eqb_neq; lia).
  cbv zeta. cbv beta iota.
  change (maxUint64 / 10 + 1) with (maxUint64 / 10 + 1) in Hloop.
  rewrite Hloop. reflexivity.
Qed.

(** [strconv.ParseInt(strconv.FormatInt(i, 10), 0, 0)] is [i] for every
    [int] other than zero. *)
Lemma ParseInt_FormatInt (i : Z) :
  is_int i -> i <> 0 -> strconv_ParseInt (strconv_FormatInt i 10) 0 0 = inl i.
Proof.
  unfold is_int. intros Hi Hnz. unfold strconv_FormatInt.
  destruct (Z.ltb_spec i 0) as [Hneg|Hpos].
  - assert (Hu : 0 < Z.abs i <= maxUint64) by (unfold maxUint64; lia).
    unfold strconv_ParseInt.
    replace (byte "-" =? 43) with false by reflexivity.
    replace (byte "-" =? 45) with true by reflexivity.
    rewrite (ParseUint_formatBits _ Hu).
    replace (0 =? 0) with true by reflexivity. unfold IntSize.
    cbn [negb andb].
    replace (2 ^ (64 - 1) <? Z.abs i) with false by (symmetry; apply Z.ltb_ge; lia).
    f_equal. lia.
  - assert (Hu : 0 < Z.abs i <= maxUint64) by (unfold maxUint64; lia).
    assert (Habs : Z.abs i = i) by lia. rewrite Habs in *.
    destruct (formatBits_head _ i (log2_fuel i (proj1 Hu))) as (c & s & Hfmt & Hc).
    pose proof (ParseUint_formatBits _ Hu) as Hparse.
    rewrite Hfmt in *. unfold strconv_ParseInt.
    replace (byte c =? 43) with false by (symmetry; apply Z.eqb_neq; lia).
    replace (byte c =? 45) with false by (symmetry; apply Z.eqb_neq; lia).
    rewrite Hparse.
    replace (0 =? 0) with true by reflexivity. unfold IntSize.
    cbn [negb andb].
    replace (2 ^ (64 - 1) <=? i) with false by (symmetry; apply Z.leb_gt; lia).
    reflexivity.
Qed.

(** [FormatInt] never writes the empty string. *)
Lemma FormatInt_nonempty (i : Z) : strconv_FormatInt i 10 <> EmptyString.
Proof.
  unfold strconv_FormatInt. destruct (i <? 0); [discriminate|].
  cbn [formatBits]. destruct (Z.abs i <? 10); [discriminate|].
  destruct (formatBits _ _ _); discriminate.
Qed.

(** ** List parameters and the query map *)

Lemma eqb_empty_false (s : string) : s <> "" -> String.eqb s "" = false.
Proof. intros Hs. by apply String.eqb_neq. Qed.

Lemma ToMap_lookup (p : ListParams) (k : string) : ToMap p !! k = query_entry p k.
Proof.
  unfold ToMap, query_entry.
  destruct (String.eqb_spec k "filter") as [->|Hf];
    [|destruct (String.eqb_spec k "limit") as [->|Hl];
      [|destruct (String.eqb_spec k "sort") as [->|Hs];
        [|destruct (String.eqb_spec k "offset") as [->|Ho]]]];
    destruct (String.eqb (Filter p) ""), (Limit p =? 0),
      (String.eqb (Sort p) ""), (Offset p =? 0);
    cbn [negb]; by simplify_map_eq.
Qed.

Lemma index_ToMap_filter (p : ListParams) : index (ToMap p) "filter" = Filter p.
Proof.
  unfold index. rewrite ToMap_lookup. cbn.
  destruct (String.eqb_spec (Filter p) ""); cbn; congruence.
Qed.

Lemma index_ToMap_sort (p : ListParams) : index (ToMap p) "sort" = Sort p.
Proof.
  unfold index. rewrite ToMap_lookup. cbn.
  destruct (String.eqb_spec (Sort p) ""); cbn; congruence.
Qed.

(** A numeric entry as [ListParamsFromMap] reads it back. *)
Lemma read_back (m : gmap string string) (k : string) (n : Z) :
  is_int n ->
  m !! k = (if n =? 0 then None else Some (strconv_FormatInt n 10)) ->
  (if negb (String.eqb (index m k) "") then parse_or_panic (index m k) else Done 0)
  = Done n.
Proof.
  intros Hn Hk. unfold index. rewrite Hk.
  destruct (Z.eqb_spec n 0) as [->|Hnz]; [reflexivity|].
  rewrite eqb_empty_false by apply FormatInt_nonempty.
  cbn [negb]. unfold parse_or_panic. by rewrite ParseInt_FormatInt.
Qed.

Lemma FromMap_ToMap (p : ListParams) :
  is_int (Limit p) -> is_int (Offset p) -> ListParamsFromMap (ToMap p) = Done p.
Proof.
  intros Hl Ho. unfold ListParamsFromMap.
  rewrite index_ToMap_filter, index_ToMap_sort.
  rewrite (read_back _ "offset" _ Ho) by (by rewrite ToMap_lookup).
  cbn [mbind outcome_bind].
  rewrite (read_back _ "limit" _ Hl) by (by rewrite ToMap_lookup).
  cbn [mbind outcome_bind].
  by destruct p.
Qed.

(** A numeric entry of a canonical map is read as the number it was
    written from. *)
Lemma canonical_numeric (m : gmap string string) (k : string) :
  canonical_query m -> k = "limit" \/ k = "offset" ->
  exists n, is_int n /\
    m !! k = (if n =? 0 then None else Some (strconv_FormatInt n 10)).
Proof.
  intros Hm Hk. destruct (m !! k) as [v|] eqn:Hv.
  - destruct (Hm k v Hv) as [[[-> | ->] _]|[_ (n & Hn & Hnz & ->)]].
    + by destruct Hk.
    + by destruct Hk.
    + exists n. split; [done|]. by destruct (Z.eqb_spec n 0).
  - exists 0. split; [bounds; lia|done].
Qed.

Lemma ToMap_FromMap (m : gmap string string) :
  canonical_query m -> exists p, ListParamsFromMap m = Done p /\ ToMap p = m.
Proof.
  intros Hm.
  destruct (canonical_numeric m "limit" Hm) as (l & Hl & Hml); [by left|].
  destruct (canonical_numeric m "offset" Hm) as (o & Ho & Hmo); [by right|].
  exists (mkListParams (index m "filter") l (index m "sort") o). split.
  - unfold ListParamsFromMap.
    rewrite (read_back _ "offset" _ Ho Hmo). cbn [mbind outcome_bind].
    rewrite (read_back _ "limit" _ Hl Hml). reflexivity.
  - apply map_eq. intros k. rewrite ToMap_lookup. unfold query_entry.
    cbn [Filter Limit Sort Offset].
    destruct (String.eqb_spec k "filter") as [->|Hkf].
    { unfold index. destruct (m !! "filter") as [v|] eqn:Hv; [|done].
      destruct (Hm _ _ Hv) as [[_ Hne]|[[?|?] _]]; [|done..].
      by rewrite eqb_empty_false. }
    destruct (String.eqb_spec k "limit") as [->|Hkl]; [done|].
    destruct (String.eqb_spec k "sort") as [->|Hks].
    { unfold index. destruct (m !! "sort") as [v|] eqn:Hv; [|done].
      destruct (Hm _ _ Hv) as [[_ Hne]|[[?|?] _]]; [|done..].
      by rewrite eqb_empty_false. }
    destruct (String.eqb_spec k "offset") as [->|Hko]; [done|].
    destruct (m !! k) as [v|] eqn:Hv; [|done].
    destruct (Hm _ _ Hv) as [[[?|?] _]|[[?|?] _]]; done.
Qed.

(** C9 (as amended). For every [ListParams] value [p] whose [Limit] and
    [Offset] are Go [int]s, [ToMap p] holds exactly the fields of [p] that
    are not empty or zero, and [ListParamsFromMap (ToMap p)] is [p].
    Conversely, for every query map [m] in canonical form (keys among
    filter, sort, limit and offset; filter and sort not empty; limit and
    offset the decimal numerals [strconv.FormatInt] writes for a non-zero
    [int]), [ListParamsFromMap m] returns some [p'] and [ToMap p'] is [m]. *)
Theorem query_map_round_trip (p : ListParams) (m : gmap string string) :
  is_int (Limit p) -> is_int (Offset p) -> canonical_query m ->
  (forall k, ToMap p !! k = query_entry p k) /\
  ListParamsFromMap (ToMap p) = Done p /\
  (exists p', ListParamsFromMap m = Done p' /\ ToMap p' = m).
Proof.
  intros Hl Ho Hm. split; [|split].
  - intros k. apply ToMap_lookup.
  - by apply FromMap_ToMap.
  - by apply ToMap_FromMap.
Qed.

Lemma query_map_round_trip_witness :
  let p := mkListParams "name" 50 "" (-7) in
  let m : gmap string string := {["limit" := "16"]} in
  (forall k, ToMap p !! k = query_entry p k) /\
  ListParamsFromMap (ToMap p) = Done p /\
  (exists p', ListParamsFromMap m = Done p' /\ ToMap p' = m).
Proof.
  apply (query_map_round_trip (mkListParams "name" 50 "" (-7)) {["limit" := "16"]}).
  - unfold is_int. cbn. lia.
  - unfold is_int. cbn. lia.
  - intros k v Hkv. apply lookup_singleton_Some in Hkv as [<- <-].
    right. split; [by left|]. exists 16.
    split; [unfold is_int; lia|]. split; [lia|reflexivity].
Defined.

(** C9, counterexample. The map [{limit: 0x10}] has a single numeric,
    non-zero entry: [ParseInt] with base 0 reads it as 16. Converting it to
    [ListParams] and back gives [{limit: 16}], another map. *)
Lemma query_map_hex_limit_not_restored :
  strconv_ParseInt "0x10" 0 0 = inl 16 /\
  ListParamsFromMap {["limit" := "0x10"]} = Done (mkListParams "" 16 "" 0) /\
  ToMap (mkListParams "" 16 "" 0) = {["limit" := "16"]} /\
  ToMap (mkListParams "" 16 "" 0) <> {["limit" := "0x10"]}.
Proof.
  split; [reflexivity|]. split; [reflexivity|]. split; [reflexivity|].
  intros H. apply (f_equal (fun m : gmap string string => m !! "limit")) in H.
  vm_compute in H. discriminate.
Qed.

(** ** The error classifier *)

Section Classifier.

Context {Body : Type} {UE : Unmarshal Body ApiErrorResponse}.

(** Case analysis on every comparison [a =? b] of the goal. *)
Ltac case_eqb :=
  repeat match goal with
         | |- context [?a =? ?b] => destruct (Z.eqb_spec a b)
         end.

Lemma badStatus_denied (status : Z) :
  badStatus status = Some ErrPermissionDenied <-> status = 401.
Proof.
  unfold badStatus, InvalidRequest, PermissionDenied, Retry503, ConnectionError,
    RetryRequestAfterLogin.
  case_eqb; split; intros; subst; try done; lia.
Qed.

Lemma badStatus_retryable (status : Z) :
  badStatus status = Some ErrRetry503 \/ badStatus status = Some ErrConnectionError
  <-> status = 503 \/ status = 9998.
Proof.
  unfold badStatus, InvalidRequest, PermissionDenied, Retry503, ConnectionError,
    RetryRequestAfterLogin.
  case_eqb; split; intros [?|?]; subst; try done; try lia; auto.
Qed.

Lemma badStatus_other (status : Z) :
  status <> 400 -> status <> 401 -> status <> 503 -> status <= 999 ->
  badStatus status = None.
Proof.
  intros. unfold badStatus, InvalidRequest, PermissionDenied, Retry503,
    ConnectionError, RetryRequestAfterLogin.
  case_eqb; try done; lia.
Qed.

Lemma translateErrors_failure (resp : Response Body) :
  Ok resp = false ->
  translateErrors resp None = (Some (api_error resp), badStatus (StatusCode resp)).
Proof. intros Hok. unfold translateErrors, api_error. by rewrite Hok. Qed.

(** C5. For every pair of a transport error and an HTTP response (whose
    status code has at most three digits, as every HTTP status has), the
    classifier returns:
    - on a transport error whose message indicates a refused connection,
      no API error and the [ConnectionError] outcome;
    - on any other transport error, no API error and that error unchanged;
    - on a failure status, the API error decoded from the body, with its
      [Http] field set to the response's status code when the body left it
      zero, paired with [InvalidRequest] for 400, [PermissionDenied] for
      401, [Retry503] for 503 and with no error for any other status;
    - on a success status with no transport error, [(nil, nil)]. *)
Theorem translateErrors_classifies (resp : Response Body) (err : option error) :
  StatusCode resp <= 999 ->
  (forall e, err = Some e ->
     strings_Contains (Error e) "connect: connection refused" = true ->
     translateErrors resp err = (None, Some ErrConnectionError)) /\
  (forall e, err = Some e ->
     strings_Contains (Error e) "connect: connection refused" = false ->
     translateErrors resp err = (None, Some e)) /\
  (err = None -> Ok resp = false ->
     exists eresp class,
       translateErrors resp err = (Some eresp, class) /\
       eresp = (let decoded := (resp_JSON resp new_ApiErrorResponse).1 in
                if Http decoded =? 0 then set_Http (StatusCode resp) decoded
                else decoded) /\
       (Http (resp_JSON resp new_ApiErrorResponse).1 = 0 ->
        Http eresp = StatusCode resp) /\
       (StatusCode resp = 400 -> class = Some ErrInvalidRequest) /\
       (StatusCode resp = 401 -> class = Some ErrPermissionDenied) /\
       (StatusCode resp = 503 -> class = Some ErrRetry503) /\
       (StatusCode resp <> 400 -> StatusCode resp <> 401 ->
        StatusCode resp <> 503 -> class = None)) /\
  (err = None -> Ok resp = true -> translateErrors resp err = (None, None)).
Proof.
  intros Hstatus. repeat split.
  - intros e -> He. unfold translateErrors. by rewrite He.
  - intros e -> He. unfold translateErrors. by rewrite He.
  - intros -> Hok. eexists _, _. split; [by apply translateErrors_failure|].
    split; [reflexivity|]. split; [|split; [|split; [|split]]].
    + intros Hz. unfold api_error. by rewrite Hz.
    + by intros ->.
    + by intros ->.
    + by intros ->.
    + intros. by apply badStatus_other.
  - intros -> Hok. unfold translateErrors. by rewrite Hok.
Qed.

End Classifier.

Lemma translateErrors_classifies_witness :
  translateErrors (reply_resp (failure 503)) None
  = (Some (set_Http 503 new_ApiErrorResponse), Some ErrRetry503) /\
  translateErrors (reply_resp refused) (ErrOther <$> reply_err refused)
  = (None, Some ErrConnectionError).
Proof.
  assert (Hs : StatusCode (reply_resp (failure 503)) <= 999) by (cbn; lia).
  assert (Hr : StatusCode (reply_resp refused) <= 999) by (cbn; lia).
  split.
  - destruct (translateErrors_classifies (reply_resp (failure 503)) None Hs)
      as (_ & _ & Hfail & _).
    destruct (Hfail eq_refl eq_refl) as (eresp & class & -> & -> & _ & _ & _ & Hc & _).
    by rewrite (Hc eq_refl).
  - destruct (translateErrors_classifies (reply_resp refused)
                (ErrOther <$> reply_err refused) Hr) as (Href & _).
    by apply (Href (ErrOther "dial tcp 10.0.0.1:7717: connect: connection refused")).
Defined.

(** ** One attempt *)

(** Decides the [bool_decide]s of the goal whose proposition is settled
    by the constructors it compares. *)
Ltac decide_goal :=
  repeat match goal with
         | |- context [bool_decide ?P] =>
             first
               [ rewrite (bool_decide_eq_true_2 P) by (try done; congruence)
               | rewrite (bool_decide_eq_false_2 P)
                   by (try done; try congruence;
                       let H := fresh in intros H; apply H; reflexivity) ]
         end.

Section Pipeline.

Context {Body : Type}.
Context {UE : Unmarshal Body ApiErrorResponse} {UL : Unmarshal Body ApiLogin}.
Context {R : Type} {U : Unmarshal Body R}.

Implicit Types (w : World Body) (ro : RequestOptions) (rs : R).

(** The defining equations of the loop, of [retry] and of [Login]. *)
Lemma retry_loop_eq fuel method url ro rs sensitive allowLogin t1 backoff w :
  retry_loop (S fuel) method url ro rs sensitive allowLogin t1 backoff w
  = if now w - t1 <? RetryTimeout then
      '(apiresp, err, ro, rs, w) ←
        do fuel method url ro rs (negb canRetry) sensitive allowLogin w;
      if bool_decide (apiresp = None) && bool_decide (err = None) then
        Done (None, None, ro, rs, w)
      else if match apiresp with
              | Some a => negb (Http a =? 503)
              | None => false
              end then
        Done (apiresp, None, ro, rs, w)
      else if match err with
              | Some e =>
                  negb (strings_Contains (Error e) "connect: connection refused")
              | None => false
              end then
        Done (None, err, ro, rs, w)
      else
        retry_loop fuel method url ro rs sensitive allowLogin t1 (backoff + 1)
          (Sleep (backoff * backoff) w)
    else Done (None, Some ErrRetryTimeout, ro, rs, w).
Proof. reflexivity. Qed.

Lemma retry_eq fuel method url ro rs sensitive allowLogin w :
  retry (S fuel) method url ro rs sensitive allowLogin w
  = retry_loop fuel method url ro rs sensitive allowLogin (now w) 1 w.
Proof. reflexivity. Qed.

Lemma Login_eq fuel w :
  Login (S fuel) w
  = if negb (String.eqb (apikey (conn w)) "") then Done (None, None, w)
    else
      '(apiresp, err, _, login, w) ←
        do fuel "PUT" "login" (login_options (conn w)) new_ApiLogin
           canRetry isSensitive (negb allowLogin) w;
      let denied :=
        match apiresp with
        | Some a => Http a =? PermissionDenied
        | None => false
        end
        || bool_decide (err = badStatus PermissionDenied) in
      Done (apiresp, err,
            if denied then set_conn (set_apikey "" (conn w)) w
            else set_conn (set_apikey (Key login) (conn w)) w).
Proof. reflexivity. Qed.

(** A successful response: the body is decoded into the holder, and an
    error of the decoder is the error of the attempt. *)
Lemma do_success fuel method url ro rs retry' sensitive allowLogin w :
  reply_err (next_reply w) = None ->
  Ok (reply_resp (next_reply w)) = true ->
  do (S fuel) method url ro rs retry' sensitive allowLogin w
  = Done (None, (resp_JSON (reply_resp (next_reply w)) rs).2, sent ro,
          (resp_JSON (reply_resp (next_reply w)) rs).1, answered method url ro w).
Proof.
  intros Herr Hok. cbn [do]. unfold DoRegularRequest, answered, DoRegularRequest.
  fold (next_reply w). fold (sent ro). rewrite Herr. cbn [fmap option_fmap option_map].
  unfold translateErrors. rewrite Hok. cbn [negb].
  destruct (resp_JSON _ rs) as [rs' [e|]]; cbn [fst snd]; decide_goal;
    by rewrite ?andb_false_r.
Qed.

(** A failure status that is neither a denial nor (when retries are on)
    retryable: the API error is returned. *)
Lemma do_api_error fuel method url ro rs retry' sensitive allowLogin w :
  reply_err (next_reply w) = None ->
  Ok (reply_resp (next_reply w)) = false ->
  StatusCode (reply_resp (next_reply w)) <> 401 ->
  retry' = false \/ (StatusCode (reply_resp (next_reply w)) <> 503 /\
                     StatusCode (reply_resp (next_reply w)) <> 9998) ->
  do (S fuel) method url ro rs retry' sensitive allowLogin w
  = Done (Some (api_error (reply_resp (next_reply w))), None, sent ro, rs,
          answered method url ro w).
Proof.
  intros Herr Hok Hdenied Hretry. cbn [do].
  unfold DoRegularRequest, answered, DoRegularRequest.
  fold (next_reply w). fold (sent ro). rewrite Herr. cbn [fmap option_fmap option_map].
  rewrite translateErrors_failure by done.
  rewrite bool_decide_eq_false_2 by (by rewrite badStatus_denied).
  assert (Hnot : retry' && (bool_decide (badStatus (StatusCode (reply_resp (next_reply w)))
                                          = badStatus Retry503)
                            || bool_decide (badStatus (StatusCode (reply_resp (next_reply w)))
                                            = badStatus ConnectionError)) = false).
  { destruct Hretry as [->|[H503 H9998]]; [done|].
    apply andb_false_intro2, orb_false_intro; apply bool_decide_eq_false_2;
      intros Heq;
      destruct (proj1 (badStatus_retryable (StatusCode (reply_resp (next_reply w)))));
      try done; [by left|by right]. }
  rewrite Hnot. by decide_goal.
Qed.

(** A denial when re-authentication is not permitted, or when no token is
    held: the API error is returned. *)
Lemma do_denied fuel method url ro rs retry' sensitive allowLogin w :
  reply_err (next_reply w) = None ->
  Ok (reply_resp (next_reply w)) = false ->
  StatusCode (reply_resp (next_reply w)) = 401 ->
  allowLogin && hasLoggedIn w = false ->
  do (S fuel) method url ro rs retry' sensitive allowLogin w
  = Done (Some (api_error (reply_resp (next_reply w))), None, sent ro, rs,
          answered method url ro w).
Proof.
  intros Herr Hok Hdenied Hlogin. cbn [do].
  unfold DoRegularRequest, answered, DoRegularRequest.
  fold (next_reply w). fold (sent ro). rewrite Herr. cbn [fmap option_fmap option_map].
  rewrite translateErrors_failure by done.
  rewrite bool_decide_eq_true_2 by (by rewrite Hdenied).
  unfold hasLoggedIn in *. cbn [conn]. by rewrite Hlogin.
Qed.

(** A denial while a token is held and re-authentication is permitted:
    logout, login, and (if the login succeeded) the same call once more,
    with retries off and re-authentication still permitted. *)
Lemma do_reauth fuel method url ro rs retry' sensitive allowLogin w :
  reply_err (next_reply w) = None ->
  Ok (reply_resp (next_reply w)) = false ->
  StatusCode (reply_resp (next_reply w)) = 401 ->
  allowLogin = true -> hasLoggedIn w = true ->
  do (S fuel) method url ro rs retry' sensitive allowLogin w
  = '(apiresp, err2, w2) ← Login fuel (Logout (answered method url ro w));
    if bool_decide (apiresp ≠ None) || bool_decide (err2 ≠ None)
    then Done (apiresp, err2, sent ro, rs, w2)
    else do fuel method url (set_Header "Auth-Token" (apikey (conn w2)) (sent ro)) rs
           false sensitive allowLogin w2.
Proof.
  intros Herr Hok Hdenied -> Hlogin. cbn [do].
  unfold DoRegularRequest, answered, DoRegularRequest.
  fold (next_reply w). fold (sent ro). rewrite Herr. cbn [fmap option_fmap option_map].
  rewrite translateErrors_failure by done.
  rewrite bool_decide_eq_true_2 by (by rewrite Hdenied).
  unfold hasLoggedIn in *. cbn [conn]. rewrite Hlogin. reflexivity.
Qed.

(** A retryable failure status with retries on: the retry loop takes over. *)
Lemma do_retry_503 fuel method url ro rs sensitive allowLogin w :
  reply_err (next_reply w) = None ->
  Ok (reply_resp (next_reply w)) = false ->
  StatusCode (reply_resp (next_reply w)) = 503 ->
  do (S fuel) method url ro rs true sensitive allowLogin w
  = retry fuel method url (sent ro) rs sensitive allowLogin (answered method url ro w).
Proof.
  intros Herr Hok Hstatus. cbn [do].
  unfold DoRegularRequest, answered, DoRegularRequest.
  fold (next_reply w). fold (sent ro). rewrite Herr. cbn [fmap option_fmap option_map].
  rewrite translateErrors_failure by done. rewrite Hstatus.
  reflexivity.
Qed.

(** A transport error: a refused connection becomes [ConnectionError]
    (and goes to the retry loop when retries are on), any other error is
    returned as it is. *)
Lemma do_transport_error fuel method url ro rs retry' sensitive allowLogin w msg :
  reply_err (next_reply w) = Some msg ->
  strings_Contains msg "connect: connection refused" = false ->
  do (S fuel) method url ro rs retry' sensitive allowLogin w
  = Done (None, Some (ErrOther msg), sent ro, rs, answered method url ro w).
Proof.
  intros Herr Hmsg. cbn [do].
  unfold DoRegularRequest, answered, DoRegularRequest.
  fold (next_reply w). fold (sent ro). rewrite Herr. cbn [fmap option_fmap option_map].
  unfold translateErrors. cbn [Error]. rewrite Hmsg.
  decide_goal. by rewrite ?andb_false_r.
Qed.

Lemma do_refused fuel method url ro rs retry' sensitive allowLogin w msg :
  reply_err (next_reply w) = Some msg ->
  strings_Contains msg "connect: connection refused" = true ->
  do (S fuel) method url ro rs retry' sensitive allowLogin w
  = if retry'
    then retry fuel method url (sent ro) rs sensitive allowLogin (answered method url ro w)
    else Done (None, Some ErrConnectionError, sent ro, rs, answered method url ro w).
Proof.
  intros Herr Hmsg. cbn [do].
  unfold DoRegularRequest, answered, DoRegularRequest.
  fold (next_reply w). fold (sent ro). rewrite Herr. cbn [fmap option_fmap option_map].
  unfold translateErrors. cbn [Error]. rewrite Hmsg.
  by destruct retry'.
Qed.

(** ** The retry loop *)

(** Once the budget is spent the loop ends, and [retry] returns its own
    [apiresp], which is still [nil]. *)
Lemma retry_loop_timeout fuel method url ro rs sensitive allowLogin t1 backoff w :
  RetryTimeout <= now w - t1 ->
  retry_loop (S fuel) method url ro rs sensitive allowLogin t1 backoff w
  = Done (None, Some ErrRetryTimeout, ro, rs, w).
Proof.
  intros Ht. rewrite retry_loop_eq.
  by destruct (Z.ltb_spec (now w - t1) RetryTimeout); [lia|].
Qed.

(** A turn whose attempt yields a 503 API error (and no error, or an error
    whose message indicates a refused connection) sleeps for the square of
    [backoff] seconds and goes on with [backoff + 1]. *)
Lemma retry_loop_backoff fuel method url ro rs sensitive allowLogin t1 backoff w
    a err ro' rs' w' :
  now w - t1 < RetryTimeout ->
  do fuel method url ro rs (negb canRetry) sensitive allowLogin w
  = Done (Some a, err, ro', rs', w') ->
  Http a = 503 ->
  (forall e, err = Some e ->
     strings_Contains (Error e) "connect: connection refused" = true) ->
  retry_loop (S fuel) method url ro rs sensitive allowLogin t1 backoff w
  = retry_loop fuel method url ro' rs' sensitive allowLogin t1 (backoff + 1)
      (Sleep (backoff * backoff) w').
Proof.
  intros Ht Hdo Hhttp Herr. rewrite retry_loop_eq.
  destruct (Z.ltb_spec (now w - t1) RetryTimeout); [|lia].
  rewrite Hdo. cbn [mbind outcome_bind]. decide_goal. cbn [andb].
  rewrite Hhttp. cbn [negb Z.eqb Pos.eqb].
  destruct err as [e|]; [|done]. by rewrite (Herr e eq_refl).
Qed.

(** C7. Take any turn of the retry loop that is within the budget, and
    let its attempt yield [(apiresp, err)]. If [apiresp] is an API error
    whose [Http] is not 503, the loop returns it at once; if there is no
    API error and [err] is an error whose message does not indicate a
    refused connection, the loop returns that error at once. In both
    cases the world returned is the one the attempt left: no sleep and no
    further request. *)
Theorem retry_returns_terminal_outcome fuel method url ro rs sensitive allowLogin
    t1 backoff w apiresp err ro' rs' w' :
  now w - t1 < RetryTimeout ->
  do fuel method url ro rs (negb canRetry) sensitive allowLogin w
  = Done (apiresp, err, ro', rs', w') ->
  (forall a, apiresp = Some a -> Http a <> 503 ->
     retry_loop (S fuel) method url ro rs sensitive allowLogin t1 backoff w
     = Done (Some a, None, ro', rs', w')) /\
  (forall e, apiresp = None -> err = Some e ->
     strings_Contains (Error e) "connect: connection refused" = false ->
     retry_loop (S fuel) method url ro rs sensitive allowLogin t1 backoff w
     = Done (None, Some e, ro', rs', w')).
Proof.
  intros Ht Hdo. split.
  - intros a -> Hhttp. rewrite retry_loop_eq.
    destruct (Z.ltb_spec (now w - t1) RetryTimeout); [|lia].
    rewrite Hdo. cbn [mbind outcome_bind]. decide_goal. cbn [andb].
    by destruct (Z.eqb_spec (Http a) 503).
  - intros e -> -> He. rewrite retry_loop_eq.
    destruct (Z.ltb_spec (now w - t1) RetryTimeout); [|lia].
    rewrite Hdo. cbn [mbind outcome_bind]. decide_goal. cbn [andb].
    by rewrite He.
Qed.

End Pipeline.

Lemma retry_returns_terminal_outcome_witness :
  retry_loop 2 "GET" "storage_nodes" new_RequestOptions new_ApiListOuter false true 0 1
    (world "key" (script [] (failure 400)))
  = Done (Some (set_Http 400 new_ApiErrorResponse), None, sent new_RequestOptions,
          new_ApiListOuter,
          answered "GET" "storage_nodes" new_RequestOptions
            (world "key" (script [] (failure 400)))).
Proof.
  refine (proj1 (retry_returns_terminal_outcome 1 "GET" "storage_nodes"
                   new_RequestOptions new_ApiListOuter false true 0 1
                   (world "key" (script [] (failure 400))) _ _ _ _ _ _ _) _ eq_refl _).
  - reflexivity.
  - reflexivity.
  - cbn. lia.
Defined.

(** ** The session *)

Section Session.

Context {Body : Type}.
Context {UE : Unmarshal Body ApiErrorResponse} {UL : Unmarshal Body ApiLogin}.

Implicit Types (w : World Body).

(** C6. [Login]'s postcondition.
    - When the token is not empty, [Login] returns success and leaves the
      world as it was: no request is made and the token is unchanged.
    - Otherwise the login request is the call [do PUT login] (retries on,
      re-authentication off). When its outcome is a permission denial (an
      API error whose [Http] is 401, or the [PermissionDenied] error) the
      token is cleared and the outcome returned; when it succeeds the [Key]
      the response was decoded to is stored as the token.
    - In terms of the transport: a 401 answer to the login request makes
      [Login] return the API error with the token empty, and a successful
      answer makes it store the key decoded from that answer. *)
Theorem Login_postcondition fuel w :
  (apikey (conn w) <> "" -> Login (S fuel) w = Done (None, None, w)) /\
  (apikey (conn w) = "" ->
   forall apiresp err ro login w',
     do fuel "PUT" "login" (login_options (conn w)) new_ApiLogin
       canRetry isSensitive (negb allowLogin) w
     = Done (apiresp, err, ro, login, w') ->
     ((exists a, apiresp = Some a /\ Http a = PermissionDenied)
      \/ err = Some ErrPermissionDenied ->
      Login (S fuel) w
      = Done (apiresp, err, set_conn (set_apikey "" (conn w')) w')) /\
     (apiresp = None -> err = None ->
      Login (S fuel) w
      = Done (None, None, set_conn (set_apikey (Key login) (conn w')) w'))) /\
  (apikey (conn w) = "" ->
   reply_err (next_reply w) = None ->
   Ok (reply_resp (next_reply w)) = false ->
   StatusCode (reply_resp (next_reply w)) = 401 ->
   exists w',
     Login (S (S fuel)) w
     = Done (Some (api_error (reply_resp (next_reply w))), None, w') /\
     apikey (conn w') = "" /\ issued w' = S (issued w)) /\
  (apikey (conn w) = "" ->
   reply_err (next_reply w) = None ->
   Ok (reply_resp (next_reply w)) = true ->
   forall login,
     resp_JSON (reply_resp (next_reply w)) new_ApiLogin = (login, None) ->
     exists w',
       Login (S (S fuel)) w = Done (None, None, w') /\
       apikey (conn w') = Key login /\ issued w' = S (issued w)).
Proof.
  split; [|split; [|split]].
  - intros Hkey. rewrite Login_eq. by rewrite eqb_empty_false.
  - intros Hkey apiresp err ro login w' Hdo. rewrite Login_eq, Hkey, Hdo.
    cbn [String.eqb negb mbind outcome_bind]. split.
    + intros [(a & -> & Ha)| ->].
      * rewrite Ha. by cbn.
      * decide_goal. by rewrite orb_true_r.
    + intros -> ->. by decide_goal.
  - intros Hkey Herr Hok Hstatus. rewrite Login_eq, Hkey.
    cbn [String.eqb negb].
    rewrite do_denied by done. cbn [mbind outcome_bind].
    eexists. split; [reflexivity|]. by destruct (_ || _).
  - intros Hkey Herr Hok login Hlogin. rewrite Login_eq, Hkey.
    cbn [String.eqb negb].
    rewrite do_success by done. rewrite Hlogin. cbn [mbind outcome_bind fst snd].
    decide_goal. cbn [orb].
    eexists. split; [reflexivity|]. by split.
Qed.

End Session.

Lemma Login_postcondition_witness :
  exists w',
    Login 2 (world "" (script [login_ok "session-key"] (failure 500)))
    = Done (None, None, w') /\
    apikey (conn w') = "session-key" /\ issued w' = 1%nat.
Proof.
  exact (proj2 (proj2 (proj2
           (Login_postcondition 0 (world "" (script [login_ok "session-key"] (failure 500))))))
           eq_refl eq_refl eq_refl _ eq_refl).
Defined.

(** ** Where the code departs from the specification *)

(** On an appliance that keeps denying the call while accepting the
    login, the attempt never returns: each replay is made with
    re-authentication still permitted, and starts the next cycle. *)
Lemma do_denied_forever (fuel : nat) :
  forall (w : World Payload) (ro : RequestOptions) (rs : ApiListOuter) (retry' : bool),
    replies w = denies_calls -> Nat.even (issued w) = true -> hasLoggedIn w = true ->
    do fuel "GET" "app_instances" ro rs retry' false true w = OutOfFuel.
Proof.
  induction fuel as [|fuel IH]; intros w ro rs retry' Hreplies Heven Hin; [done|].
  assert (Hnext : next_reply w = failure 401).
  { unfold next_reply. rewrite Hreplies. unfold denies_calls. by rewrite Heven. }
  rewrite do_reauth by (by rewrite ?Hnext).
  destruct fuel as [|fuel']; [done|].
  set (w1 := Logout (answered "GET" "app_instances" ro w)).
  assert (Hkey : apikey (conn w1) = "") by reflexivity.
  rewrite Login_eq, Hkey. cbn [String.eqb negb].
  destruct fuel' as [|fuel'']; [done|].
  assert (Hnext1 : next_reply w1 = login_ok "fresh-key").
  { change (next_reply w1) with (replies w (S (issued w))).
    rewrite Hreplies. unfold denies_calls.
    by rewrite Nat.even_succ, <- Nat.negb_even, Heven. }
  rewrite do_success by (by rewrite Hnext1).
  rewrite Hnext1. cbn [mbind outcome_bind]. decide_goal. cbn [orb].
  apply IH.
  - cbn. by rewrite Hreplies.
  - cbn. by rewrite Heven.
  - reflexivity.
Qed.

(** C1, the code at the failing input. The call is denied, the login
    succeeds, the replay is denied as well, and the code starts a second
    cycle (logout, login, replay) instead of returning the second denial;
    here the second replay succeeds. And when every replay is denied the
    call does not return at all, whatever the fuel. *)
Theorem reauth_is_repeated_after_a_denied_replay :
  (exists ro rs w,
     do 5 "GET" "app_instances" new_RequestOptions new_ApiListOuter false false true
       (world "stale-key"
          (script [failure 401; login_ok "key-1"; failure 401; login_ok "key-2";
                   page [] ∅] (failure 500)))
     = Done (None, None, ro, rs, w) /\
     calls (trace w)
     = [("GET", "app_instances"); ("PUT", "login"); ("GET", "app_instances");
        ("PUT", "login"); ("GET", "app_instances")] /\
     apikey (conn w) = "key-2") /\
  (forall fuel,
     do fuel "GET" "app_instances" new_RequestOptions new_ApiListOuter false false true
       (world "stale-key" denies_calls)
     = OutOfFuel).
Proof.
  split.
  - eexists _, _, _. split; [vm_compute; reflexivity|].
    split; vm_compute; reflexivity.
  - intros fuel. by apply do_denied_forever.
Qed.

(** [retry] never pairs an API error with an error: what it returns after
    the loop is its own [apiresp], which nothing assigns. *)
Lemma retry_loop_error_without_api_error {Body : Type}
    {UE : Unmarshal Body ApiErrorResponse} {UL : Unmarshal Body ApiLogin}
    {R : Type} {U : Unmarshal Body R} (fuel : nat) :
  forall method url ro (rs : R) sensitive allowLogin t1 backoff (w : World Body)
         apiresp err ro' rs' w',
    retry_loop fuel method url ro rs sensitive allowLogin t1 backoff w
    = Done (apiresp, err, ro', rs', w') ->
    err <> None -> apiresp = None.
Proof.
  induction fuel as [|fuel IH];
    intros method url ro rs sensitive allowLogin t1 backoff w apiresp err ro' rs' w';
    [done|].
  rewrite retry_loop_eq. destruct (now w - t1 <? RetryTimeout); [|congruence].
  destruct (do fuel method url ro rs (negb canRetry) sensitive allowLogin w)
    as [[[[[a e] ro1] rs1] w1]| |]; [|done..].
  cbn [mbind outcome_bind].
  destruct (bool_decide (a = None) && bool_decide (e = None)); [congruence|].
  destruct (match a with Some _ => _ | None => _ end); [congruence|].
  destruct (match e with Some _ => _ | None => _ end); [congruence|].
  apply IH.
Qed.

(** C2, the code at the failing input. Every attempt is answered 503, so
    every turn of the loop holds a 503 API error. The budget of 300 seconds
    is spent after ten attempts (the sleeps add up to 385 seconds), and
    [retry] returns the timeout error with no API error. *)
Theorem retry_timeout_loses_the_api_error :
  (forall w : World Payload,
     replies w = script [] (failure 503) ->
     exists ro rs w',
       do 1 "GET" "app_instances" new_RequestOptions new_ApiListOuter false false true w
       = Done (Some (set_Http 503 new_ApiErrorResponse), None, ro, rs, w')) /\
  (exists ro rs w,
     retry 12 "GET" "app_instances" new_RequestOptions new_ApiListOuter false true
       (world "key" (script [] (failure 503)))
     = Done (None, Some ErrRetryTimeout, ro, rs, w) /\
     sleeps (trace w) = [1; 4; 9; 16; 25; 36; 49; 64; 81; 100] /\
     length (requests (trace w)) = 10%nat /\
     now w = 385).
Proof.
  split.
  - intros w Hw.
    assert (Hnext : next_reply w = failure 503).
    { unfold next_reply. rewrite Hw. unfold script. by destruct (issued w). }
    eexists _, _, _.
    rewrite do_api_error; rewrite ?Hnext; [reflexivity|done..|by left].
  - eexists _, _, _. split; [vm_compute; reflexivity|].
    repeat split; vm_compute; reflexivity.
Qed.

(** In the loop, a refused connection ends the retries: the attempt has
    turned the transport error into [ConnectionError], and the message the
    loop looks for is not the message of that error. *)
Lemma retry_loop_refused {Body : Type}
    {UE : Unmarshal Body ApiErrorResponse} {UL : Unmarshal Body ApiLogin}
    {R : Type} {U : Unmarshal Body R}
    fuel method url ro (rs : R) sensitive allowLogin t1 backoff (w : World Body) msg :
  now w - t1 < RetryTimeout ->
  reply_err (next_reply w) = Some msg ->
  strings_Contains msg "connect: connection refused" = true ->
  retry_loop (S (S fuel)) method url ro rs sensitive allowLogin t1 backoff w
  = Done (None, Some ErrConnectionError, sent ro, rs, answered method url ro w).
Proof.
  intros Ht Herr Hmsg. rewrite retry_loop_eq.
  destruct (Z.ltb_spec (now w - t1) RetryTimeout); [|lia].
  rewrite (do_refused _ _ _ _ _ _ _ _ _ msg) by done.
  reflexivity.
Qed.

(** C8, the code at the failing input. The connection is refused at every
    attempt. The first turn of the loop returns [ConnectionError] without
    a sleep and without a second attempt. *)
Theorem refused_connection_is_not_retried :
  exists ro rs w,
    retry 3 "GET" "app_instances" new_RequestOptions new_ApiListOuter false true
      (world "key" (script [] refused))
    = Done (None, Some ErrConnectionError, ro, rs, w) /\
    sleeps (trace w) = [] /\
    length (requests (trace w)) = 1%nat.
Proof.
  eexists _, _, _. split; [vm_compute; reflexivity|].
  split; vm_compute; reflexivity.
Qed.

(** ** The list paginator *)

Local Open Scope list_scope.

Section Paginator.

Context {Body : Type}.
Context {UE : Unmarshal Body ApiErrorResponse} {UL : Unmarshal Body ApiLogin}.

Implicit Types (w : World Body) (ro : RequestOptions).

(** The defining equation of [do]. *)
Lemma do_eq {R : Type} {U : Unmarshal Body R} fuel method url ro (rs : R)
    retry' sensitive allowLogin w :
  do (S fuel) method url ro rs retry' sensitive allowLogin w
  = let resp := reply_resp (next_reply w) in
    let w1 := answered method url ro w in
    let '(eresp, err) := translateErrors resp (ErrOther <$> reply_err (next_reply w)) in
    if bool_decide (err = badStatus PermissionDenied) then
      if allowLogin && hasLoggedIn w1 then
        '(apiresp, err2, w2) ← Login fuel (Logout w1);
        if bool_decide (apiresp ≠ None) || bool_decide (err2 ≠ None) then
          Done (apiresp, err2, sent ro, rs, w2)
        else
          do fuel method url (set_Header "Auth-Token" (apikey (conn w2)) (sent ro)) rs
            (negb canRetry) sensitive allowLogin w2
      else Done (eresp, None, sent ro, rs, w1)
    else if retry' && (bool_decide (err = badStatus Retry503)
                       || bool_decide (err = badStatus ConnectionError)) then
      retry fuel method url (sent ro) rs sensitive allowLogin w1
    else if bool_decide (eresp ≠ None) then Done (eresp, None, sent ro, rs, w1)
    else if bool_decide (err ≠ None) then Done (None, err, sent ro, rs, w1)
    else
      let '(rs, err) := resp_JSON resp rs in
      if bool_decide (err ≠ None) then Done (None, err, sent ro, rs, w1)
      else Done (None, None, sent ro, rs, w1).
Proof. reflexivity. Qed.

(** An attempt, with or without retries, changes only the headers of the
    request options: the query parameters are those of the caller. *)
Lemma attempts_keep_Params (fuel : nat) :
  (forall R (U : Unmarshal Body R) method url ro (rs : R) retry' sensitive allowLogin w
          apiresp err ro' rs' w',
     do fuel method url ro rs retry' sensitive allowLogin w
     = Done (apiresp, err, ro', rs', w') -> Params ro' = Params ro) /\
  (forall R (U : Unmarshal Body R) method url ro (rs : R) sensitive allowLogin w
          apiresp err ro' rs' w',
     retry fuel method url ro rs sensitive allowLogin w
     = Done (apiresp, err, ro', rs', w') -> Params ro' = Params ro) /\
  (forall R (U : Unmarshal Body R) method url ro (rs : R) sensitive allowLogin
          t1 backoff w apiresp err ro' rs' w',
     retry_loop fuel method url ro rs sensitive allowLogin t1 backoff w
     = Done (apiresp, err, ro', rs', w') -> Params ro' = Params ro).
Proof.
  induction fuel as [|fuel (IHdo & IHretry & IHloop)]; [by repeat split|].
  split; [|split].
  - intros R U method url ro rs retry' sensitive allowLogin w apiresp err ro' rs' w'.
    rewrite do_eq. cbv zeta.
    destruct (translateErrors _ _) as [eresp e].
    destruct (bool_decide (e = badStatus PermissionDenied)).
    { destruct (allowLogin && hasLoggedIn _); [|by intros [= <- <- <- <- <-]].
      destruct (Login fuel _) as [[[a e2] w2]| |]; [|done..].
      cbn [mbind outcome_bind].
      destruct (_ || _); [by intros [= <- <- <- <- <-]|].
      intros Hdo. by rewrite (IHdo _ _ _ _ _ _ _ _ _ _ _ _ _ _ _ Hdo). }
    destruct (retry' && _).
    { intros Hr. by rewrite (IHretry _ _ _ _ _ _ _ _ _ _ _ _ _ _ Hr). }
    destruct (bool_decide (eresp ≠ None)); [by intros [= <- <- <- <- <-]|].
    destruct (bool_decide (e ≠ None)); [by intros [= <- <- <- <- <-]|].
    destruct (resp_JSON _ rs) as [rs1 e1].
    by destruct (bool_decide (e1 ≠ None)); intros [= <- <- <- <- <-].
  - intros R U method url ro rs sensitive allowLogin w apiresp err ro' rs' w'.
    rewrite retry_eq. apply IHloop.
  - intros R U method url ro rs sensitive allowLogin t1 backoff w apiresp err ro' rs' w'.
    rewrite retry_loop_eq. destruct (now w - t1 <? RetryTimeout);
      [|by intros [= <- <- <- <- <-]].
    destruct (do fuel method url ro rs (negb canRetry) sensitive allowLogin w)
      as [[[[[a e] ro1] rs1] w1]| |] eqn:Hdo; [|done..].
    cbn [mbind outcome_bind]. apply IHdo in Hdo.
    destruct (_ && _); [by intros [= <- <- <- <- <-]|].
    destruct (match a with Some _ => _ | None => _ end);
      [by intros [= <- <- <- <- <-]|].
    destruct (match e with Some _ => _ | None => _ end);
      [by intros [= <- <- <- <- <-]|].
    intros Hloop. apply IHloop in Hloop. congruence.
Qed.

Context {UO : Unmarshal Body ApiListOuter} {IC : IntConversion}.

(** [doWithAuth] on a connection that holds a token. *)
Lemma doWithAuth_logged_in {R : Type} {U : Unmarshal Body R} fuel method url ro
    (rs : R) w :
  hasLoggedIn w = true ->
  doWithAuth fuel method url (Some ro) rs w
  = '(apiresp, err, ro', rs, w) ←
      do fuel method url (with_auth w ro) rs canRetry (negb isSensitive) allowLogin w;
    Done (apiresp, err, Some ro', rs, w).
Proof. intros Hin. unfold doWithAuth. rewrite Hin. reflexivity. Qed.

(** Whatever [doWithAuth] did, the options it hands back to a caller who
    gave some are that caller's, with the same query parameters. *)
Lemma doWithAuth_keeps_Params {R : Type} {U : Unmarshal Body R} fuel method url ro
    (rs : R) w apiresp err opts rs' w' :
  doWithAuth fuel method url (Some ro) rs w = Done (apiresp, err, opts, rs', w') ->
  exists ro', opts = Some ro' /\ Params ro' = Params ro.
Proof.
  unfold doWithAuth.
  assert (Hauthed : forall w0,
    ('(apiresp0, err0, ro'0, rs0, w1) ←
       do fuel method url
         (set_Headers
            (Some (<["Auth-Token" := apikey (conn w0)]> (<["tenant" := tenant (conn w0)]> ∅)))
            (default new_RequestOptions (Some ro))) rs canRetry (negb isSensitive)
         allowLogin w0;
     Done (apiresp0, err0, (fun _ => ro'0) <$> Some ro, rs0, w1))
    = Done (apiresp, err, opts, rs', w') ->
    exists ro', opts = Some ro' /\ Params ro' = Params ro).
  { intros w0.
    destruct (do fuel _ _ _ _ _ _ _ w0) as [[[[[a e] ro2] rs2] w2]| |] eqn:Hdo; [|done..].
    cbn. intros [= <- <- <- <- <-]. eexists. split; [done|].
    by rewrite (proj1 (attempts_keep_Params fuel) _ _ _ _ _ _ _ _ _ _ _ _ _ _ _ Hdo). }
  destruct (negb (hasLoggedIn w)); [|by apply Hauthed].
  destruct (Login fuel w) as [[[a e] w2]| |]; [|done..].
  cbn [mbind outcome_bind].
  destruct (_ || _); [|by apply Hauthed].
  intros [= <- <- <- <- <-]. by eexists.
Qed.

(** The defining equation of the paginator's loop. *)
Lemma GetList_loop_eq fuel url ro rs data offset ldata tcnt0 apiresp0 err0 w :
  GetList_loop (S fuel) url ro rs data offset ldata tcnt0 apiresp0 err0 w
  = if negb (ldata =? tcnt0) then
      f ← total_count rs;
      let tcnt := int_of_float64 f in
      let offset := offset + Z.of_nat (length (Data rs)) in
      if tcnt <=? offset then Done (set_Data data rs, apiresp0, err0, w)
      else
        '(apiresp, err, ro', rs, w) ←
          doWithAuth fuel "GET" url (Some (page_options offset ro)) (set_Data [] rs) w;
        if bool_decide (apiresp ≠ None) || bool_decide (err ≠ None) then
          Done (set_Data data rs, apiresp, err, w)
        else
          GetList_loop fuel url (default (page_options offset ro) ro') rs
            (data ++ Data rs) offset ldata tcnt0 apiresp0 err0 w
    else Done (set_Data data rs, apiresp0, err0, w).
Proof. reflexivity. Qed.

Lemma total_count_Done (rs : ApiListOuter) (f : Q) :
  Metadata rs !! "total_count" = Some (VFloat64 f) -> total_count rs = Done f.
Proof. intros H. unfold total_count. by rewrite H. Qed.

(** The loop ends once the offset has reached the total count. *)
Lemma GetList_loop_done fuel url ro rs data offset ldata apiresp0 err0 w f :
  ldata <> 0 ->
  Metadata rs !! "total_count" = Some (VFloat64 f) ->
  int_of_float64 f <= offset + Z.of_nat (length (Data rs)) ->
  GetList_loop (S fuel) url ro rs data offset ldata 0 apiresp0 err0 w
  = Done (set_Data data rs, apiresp0, err0, w).
Proof.
  intros Hldata Hf Hle. rewrite GetList_loop_eq.
  destruct (Z.eqb_spec ldata 0); [done|]. cbn [negb].
  rewrite (total_count_Done _ _ Hf). cbn [mbind outcome_bind]. cbv zeta.
  by destruct (Z.leb_spec (int_of_float64 f) (offset + Z.of_nat (length (Data rs))));
    [|lia].
Qed.

(** A turn whose fetch fails returns the failure, and the items gathered
    from the pages before it. *)
Lemma GetList_loop_failure fuel url ro rs data offset ldata apiresp0 err0 w f
    apiresp err opts rs1 w1 :
  ldata <> 0 ->
  Metadata rs !! "total_count" = Some (VFloat64 f) ->
  offset + Z.of_nat (length (Data rs)) < int_of_float64 f ->
  doWithAuth fuel "GET" url
    (Some (page_options (offset + Z.of_nat (length (Data rs))) ro)) (set_Data [] rs) w
  = Done (apiresp, err, opts, rs1, w1) ->
  apiresp <> None \/ err <> None ->
  GetList_loop (S fuel) url ro rs data offset ldata 0 apiresp0 err0 w
  = Done (set_Data data rs1, apiresp, err, w1).
Proof.
  intros Hldata Hf Hlt Hfetch Hfail. rewrite GetList_loop_eq.
  destruct (Z.eqb_spec ldata 0); [done|]. cbn [negb].
  rewrite (total_count_Done _ _ Hf). cbn [mbind outcome_bind]. cbv zeta.
  destruct (Z.leb_spec (int_of_float64 f) (offset + Z.of_nat (length (Data rs))));
    [lia|].
  rewrite Hfetch. cbn [mbind outcome_bind].
  destruct Hfail; decide_goal; by rewrite ?orb_true_r.
Qed.

(** The [offset] parameter of the options of a page that does not start
    at zero. *)
Lemma offset_sent_page (offset : Z) ro (w : World Body) method base url :
  offset <> 0 ->
  offset_sent (mkRequest method base url (sent (with_auth w (page_options offset ro))))
  = strconv_FormatInt offset 10.
Proof.
  intros Hnz. unfold offset_sent, page_options. cbn [req_options].
  destruct (Params ro) as [p|]; cbn [sent with_auth set_Header set_Headers set_Params Params default from_option id].
  - unfold index. by rewrite lookup_insert_eq.
  - unfold index. rewrite ToMap_lookup. unfold query_entry. cbn [Offset String.eqb Ascii.eqb Bool.eqb].
    by destruct (Z.eqb_spec offset 0).
Qed.

(** A fetch on a connection that holds a token, answered by a page. *)
Lemma doWithAuth_page fuel url ro rs w q total :
  hasLoggedIn w = true ->
  serves_page (next_reply w) q total ->
  exists rs',
    doWithAuth (S fuel) "GET" url (Some ro) rs w
    = Done (None, None, Some (sent (with_auth w ro)), rs',
            answered "GET" url (with_auth w ro) w) /\
    Data rs' = q /\ Metadata rs' !! "total_count" = Some (VFloat64 total).
Proof.
  intros Hin (Herr & Hok & Hdecode).
  destruct (Hdecode rs) as (He & Hdata & Hmeta).
  rewrite doWithAuth_logged_in by done. rewrite do_success by done.
  rewrite He. cbn [mbind outcome_bind]. eauto.
Qed.

(** The loop advances through pages that are served: after the pages
    [qs], each of them needed, it stands before the next turn with the
    items of [qs] appended in order, one request made per page, at the
    offset where that page starts. *)
Lemma GetList_loop_advance url ldata apiresp0 err0 total (qs : list (list value)) :
  forall fuel ro rs data offset w,
    ldata <> 0 ->
    hasLoggedIn w = true ->
    Metadata rs !! "total_count" = Some (VFloat64 total) ->
    offset + Z.of_nat (length (Data rs)) = Z.of_nat (length data) ->
    0 < Z.of_nat (length data) ->
    (forall i q, qs !! i = Some q ->
       serves_page (replies w (issued w + i)%nat) q total) ->
    Forall (fun o => o < int_of_float64 total)
      (page_offsets (Z.of_nat (length data)) qs) ->
    exists ro' rs' offset' w' (reqs : list Request),
      GetList_loop (length qs + S fuel) url ro rs data offset ldata 0 apiresp0 err0 w
      = GetList_loop (S fuel) url ro' rs' (data ++ concat qs) offset' ldata 0
          apiresp0 err0 w' /\
      hasLoggedIn w' = true /\
      Metadata rs' !! "total_count" = Some (VFloat64 total) /\
      offset' + Z.of_nat (length (Data rs')) = Z.of_nat (length (data ++ concat qs)) /\
      replies w' = replies w /\
      issued w' = (issued w + length qs)%nat /\
      trace w' = (EvRequest <$> reverse reqs) ++ trace w /\
      offset_sent <$> reqs
      = (fun o => strconv_FormatInt o 10) <$> page_offsets (Z.of_nat (length data)) qs.
Proof.
  induction qs as [|q qs IH];
    intros fuel ro rs data offset w Hldata Hin Hmeta Hoffset Hdata Hserved Hneeded.
  - exists ro, rs, offset, w, []. cbn [concat length Nat.add].
    rewrite app_nil_r, Nat.add_0_r. by repeat split.
  - cbn [page_offsets] in Hneeded. apply Forall_cons in Hneeded as [Hlt Hneeded].
    assert (Hq : serves_page (next_reply w) q total).
    { unfold next_reply. rewrite <- (Nat.add_0_r (issued w)). by apply Hserved. }
    cbn [length Nat.add]. rewrite GetList_loop_eq.
    destruct (Z.eqb_spec ldata 0); [done|]. cbn [negb].
    rewrite (total_count_Done _ _ Hmeta). cbn [mbind outcome_bind]. cbv zeta.
    rewrite Hoffset.
    destruct (Z.leb_spec (int_of_float64 total) (Z.of_nat (length data))); [lia|].
    destruct (doWithAuth_page (length qs + fuel) url
                (page_options (Z.of_nat (length data)) ro) (set_Data [] rs) w q total
                Hin Hq) as (rs1 & Hfetch & Hdata1 & Hmeta1).
    replace (length qs + S fuel)%nat with (S (length qs + fuel)) by lia.
    rewrite Hfetch. cbn [mbind outcome_bind]. decide_goal. cbn [orb default from_option id].
    set (ro1 := sent (with_auth w (page_options (Z.of_nat (length data)) ro))).
    set (w1 := answered "GET" url (with_auth w (page_options (Z.of_nat (length data)) ro)) w).
    destruct (IH fuel ro1 rs1 (data ++ q) (Z.of_nat (length data)) w1)
      as (ro' & rs' & offset' & w' & reqs & Hloop & Hin' & Hmeta' & Hoffset' & Hreplies'
          & Hissued' & Htrace' & Hsent'); try done.
    { rewrite Hdata1, length_app. lia. }
    { rewrite length_app. lia. }
    { intros i q' Hi. change (replies w1) with (replies w).
      change (issued w1) with (S (issued w)).
      replace (S (issued w) + i)%nat with (issued w + S i)%nat by lia.
      by apply Hserved. }
    { by rewrite length_app, Nat2Z.inj_add. }
    replace (S (length qs + fuel)) with (length qs + S fuel)%nat by lia.
    exists ro', rs', offset', w',
      (mkRequest "GET" (baseUrl (conn w)) url ro1 :: reqs).
    rewrite Hdata1, Hloop. cbn [concat]. rewrite <- app_assoc.
    split; [done|]. split; [done|]. split; [done|].
    split; [by rewrite Hoffset', <- app_assoc|].
    split; [done|]. split; [rewrite Hissued'; cbn; lia|].
    split.
    + rewrite Htrace', reverse_cons, fmap_app, <- app_assoc. reflexivity.
    + cbn [fmap list_fmap page_offsets]. rewrite length_app, Nat2Z.inj_add in Hsent'.
      fold (fmap (M := list) offset_sent reqs). rewrite Hsent'.
      f_equal. unfold ro1. apply offset_sent_page. lia.
Qed.

Lemma metadata_not_empty (m : gmap string value) (k : string) (v : value) :
  m !! k = Some v -> (0 <? Z.of_nat (size m)) = true.
Proof.
  intros Hk. apply Z.ltb_lt.
  assert (size m <> 0%nat); [|lia].
  apply map_size_non_empty_iff. intros ->. by rewrite lookup_empty in Hk.
Qed.

(** From [GetList] into its loop: the first page came back with metadata
    and the caller gave neither a limit nor an offset. *)
Lemma GetList_enters_loop fuel url ro w err opts rs1 w1 lp :
  doWithAuth fuel "GET" url (Some ro) new_ApiListOuter w
  = Done (None, err, opts, rs1, w1) ->
  (0 <? Z.of_nat (size (Metadata rs1))) = true ->
  ListParamsFromMap (default ∅ (Params ro)) = Done lp ->
  Limit lp = 0 -> Offset lp = 0 ->
  exists ro',
    GetList fuel url (Some ro) w
    = GetList_loop fuel url ro' rs1 (Data rs1) 0 (Z.of_nat (length (Data rs1))) 0
        None err w1.
Proof.
  intros Hfirst Hmeta Hlp Hlimit Hoffset.
  destruct (doWithAuth_keeps_Params _ _ _ _ _ _ _ _ _ _ _ Hfirst) as (ro' & -> & Hparams).
  exists ro'. unfold GetList. rewrite Hfirst. cbn [mbind outcome_bind].
  decide_goal. rewrite Hmeta. cbn [andb]. rewrite Hparams, Hlp.
  cbn [mbind outcome_bind]. rewrite Hlimit, Hoffset. reflexivity.
Qed.

Lemma length_not_nil {A : Type} (l : list A) : l <> [] -> 0 < Z.of_nat (length l).
Proof. destruct l; [done|]. cbn [length]. lia. Qed.

(** C4 (as amended). Let [GetList] be called with neither limit nor
    offset, let its first page succeed with at least one item and with
    metadata holding [total] under [total_count], let the connection hold a
    token, and let the transport then serve the pages [qs], each of them
    needed (the items gathered before it are fewer than the total), the
    items gathered after the last of them being at least the total. Then
    [GetList] returns with no error, its items are those of the first page
    followed by those of [qs] in order, one request was made per page of
    [qs], and each was sent with the offset at which its page starts. *)
Theorem GetList_gathers_all_pages fuel url ro w opts rs1 w1 lp total qs :
  doWithAuth (length qs + S fuel) "GET" url (Some ro) new_ApiListOuter w
  = Done (None, None, opts, rs1, w1) ->
  ListParamsFromMap (default ∅ (Params ro)) = Done lp ->
  Limit lp = 0 -> Offset lp = 0 ->
  Data rs1 <> [] ->
  Metadata rs1 !! "total_count" = Some (VFloat64 total) ->
  hasLoggedIn w1 = true ->
  (forall i q, qs !! i = Some q ->
     serves_page (replies w1 (issued w1 + i)%nat) q total) ->
  Forall (fun o => o < int_of_float64 total)
    (page_offsets (Z.of_nat (length (Data rs1))) qs) ->
  int_of_float64 total <= Z.of_nat (length (Data rs1 ++ concat qs)) ->
  exists rs' w' (reqs : list Request),
    GetList (length qs + S fuel) url (Some ro) w = Done (rs', None, None, w') /\
    Data rs' = Data rs1 ++ concat qs /\
    int_of_float64 total <= Z.of_nat (length (Data rs')) /\
    trace w' = (EvRequest <$> reverse reqs) ++ trace w1 /\
    offset_sent <$> reqs
    = (fun o => strconv_FormatInt o 10)
        <$> page_offsets (Z.of_nat (length (Data rs1))) qs /\
    issued w' = (issued w1 + length qs)%nat.
Proof.
  intros Hfirst Hlp Hlimit Hoffset Hdata Hmeta Hin Hserved Hneeded Hall.
  destruct (GetList_enters_loop _ _ _ _ _ _ _ _ _ Hfirst
              (metadata_not_empty _ _ _ Hmeta) Hlp Hlimit Hoffset) as (ro' & ->).
  pose proof (length_not_nil _ Hdata) as Hpos.
  destruct (GetList_loop_advance url (Z.of_nat (length (Data rs1))) None None total qs
              fuel ro' rs1 (Data rs1) 0 w1)
    as (ro2 & rs2 & offset2 & w2 & reqs & -> & Hin2 & Hmeta2 & Hoffset2 & _ & Hissued2
        & Htrace2 & Hsent2); try done; [lia|].
  rewrite (GetList_loop_done _ _ _ _ _ _ _ _ _ _ total) by (done || lia).
  exists (set_Data (Data rs1 ++ concat qs) rs2), w2, reqs. by repeat split.
Qed.

(** Within the range of [int] the conversion is the integer part. *)
Lemma int_of_float64_fits (f : Q) : is_int (truncate f) -> int_of_float64 f = truncate f.
Proof.
  unfold is_int, int_of_float64. intros [Hlo Hhi].
  destruct (Z.leb_spec (- 2 ^ 63) (truncate f)); [|lia].
  by destruct (Z.ltb_spec (truncate f) (2 ^ 63)); [|lia].
Qed.

(** No page starts beyond the items of all pages. *)
Lemma page_offsets_below (qs : list (list value)) :
  forall start,
    Forall (fun o => o <= start + Z.of_nat (length (concat qs))) (page_offsets start qs).
Proof.
  induction qs as [|q qs IH]; intros start; [constructor|].
  cbn [page_offsets concat]. rewrite length_app, Nat2Z.inj_add. constructor; [lia|].
  eapply Forall_impl; [apply IH|]. cbn beta. intros o Ho. lia.
Qed.

(** C3 (as amended). Let [GetList] be called with neither limit nor
    offset, let its first page succeed with at least one item and with
    metadata holding [total] under [total_count], a number whose integer
    part fits an [int], and let the connection hold a token. Let the
    transport then serve the pages [qs], which leave the items gathered
    short of the total, and let the fetch after them fail with
    [(apiresp, err)], in whatever way a fetch fails. Then [GetList]
    returns that failure, and its result set holds the items of the first
    page followed by those of [qs]: the pages gathered before the failure
    are kept. *)
Theorem GetList_failure_keeps_gathered_pages fuel url ro w opts rs1 w1 lp total qs
    apiresp err :
  doWithAuth (length qs + S (S fuel)) "GET" url (Some ro) new_ApiListOuter w
  = Done (None, None, opts, rs1, w1) ->
  ListParamsFromMap (default ∅ (Params ro)) = Done lp ->
  Limit lp = 0 -> Offset lp = 0 ->
  Data rs1 <> [] ->
  Metadata rs1 !! "total_count" = Some (VFloat64 total) ->
  is_int (truncate total) ->
  hasLoggedIn w1 = true ->
  (forall i q, qs !! i = Some q ->
     serves_page (replies w1 (issued w1 + i)%nat) q total) ->
  Z.of_nat (length (Data rs1 ++ concat qs)) < truncate total ->
  fetch_fails (S fuel) url (replies w1) (issued w1 + length qs) apiresp err ->
  exists rs' w',
    GetList (length qs + S (S fuel)) url (Some ro) w = Done (rs', apiresp, err, w') /\
    Data rs' = Data rs1 ++ concat qs.
Proof.
  intros Hfirst Hlp Hlimit Hoffset Hdata Hmeta Hfits Hin Hserved Hshort [Hfail Hfetch].
  pose proof (int_of_float64_fits total Hfits) as Hint.
  destruct (GetList_enters_loop _ _ _ _ _ _ _ _ _ Hfirst
              (metadata_not_empty _ _ _ Hmeta) Hlp Hlimit Hoffset) as (ro' & ->).
  pose proof (length_not_nil _ Hdata) as Hpos.
  destruct (GetList_loop_advance url (Z.of_nat (length (Data rs1))) None None total qs
              (S fuel) ro' rs1 (Data rs1) 0 w1)
    as (ro2 & rs2 & offset2 & w2 & reqs & -> & Hin2 & Hmeta2 & Hoffset2 & Hreplies2
        & Hissued2 & _); try done; [lia| |].
  { eapply Forall_impl; [apply page_offsets_below|]. cbn beta. intros o Ho.
    rewrite Hint. rewrite length_app, Nat2Z.inj_add in Hshort. lia. }
  destruct (Hfetch (page_options (offset2 + Z.of_nat (length (Data rs2))) ro2)
              (set_Data [] rs2) w2 Hin2 Hreplies2 Hissued2) as (opts3 & rs3 & w3 & Hcall).
  rewrite (GetList_loop_failure (S fuel) url ro2 rs2 (Data rs1 ++ concat qs) offset2
             (Z.of_nat (length (Data rs1))) None None w2 total apiresp err opts3 rs3 w3);
    [by eexists _, _|lia|done|rewrite Hint; lia|done|done].
Qed.

(** C10 (as amended). Let [GetList] be called with neither limit nor
    offset, and let its first page come back without an API error, with at
    least one item and with metadata that is not empty and holds no
    [float64] under [total_count]. Then [GetList] panics. *)
Theorem GetList_panics_without_total_count fuel url ro w err opts rs1 w1 lp :
  doWithAuth fuel "GET" url (Some ro) new_ApiListOuter w
  = Done (None, err, opts, rs1, w1) ->
  ListParamsFromMap (default ∅ (Params ro)) = Done lp ->
  Limit lp = 0 -> Offset lp = 0 ->
  Metadata rs1 <> ∅ ->
  Data rs1 <> [] ->
  (forall f, Metadata rs1 !! "total_count" <> Some (VFloat64 f)) ->
  GetList fuel url (Some ro) w
  = Panic "interface conversion: interface {} is not float64".
Proof.
  intros Hfirst Hlp Hlimit Hoffset Hmeta Hdata Hno.
  assert (Hsize : (0 <? Z.of_nat (size (Metadata rs1))) = true).
  { apply Z.ltb_lt. assert (size (Metadata rs1) <> 0%nat); [|lia].
    by apply map_size_non_empty_iff. }
  destruct (GetList_enters_loop _ _ _ _ _ _ _ _ _ Hfirst Hsize Hlp Hlimit Hoffset)
    as (ro' & ->).
  destruct fuel as [|fuel].
  { unfold doWithAuth in Hfirst. by destruct (negb (hasLoggedIn w)). }
  rewrite GetList_loop_eq. pose proof (length_not_nil _ Hdata).
  destruct (Z.eqb_spec (Z.of_nat (length (Data rs1))) 0); [lia|]. cbn [negb].
  unfold total_count.
  destruct (Metadata rs1 !! "total_count") as [[]|] eqn:Hlookup; try done.
  by destruct (Hno f).
Qed.

End Paginator.

(** ** The ways a fetch fails *)

Section FailingFetch.

Context {Body : Type}.
Context {UE : Unmarshal Body ApiErrorResponse} {UL : Unmarshal Body ApiLogin}.
Context {UO : Unmarshal Body ApiListOuter}.

Implicit Types (w : World Body) (ro : RequestOptions) (answers : nat -> Reply Body).

(** In one request: an API error that is neither a denial nor retried, a
    transport error other than a refusal, or a body that does not decode. *)
Lemma failing_reply_fails_the_fetch fuel url answers (n : nat) apiresp err :
  fails_with (answers n) apiresp err -> fetch_fails (S fuel) url answers n apiresp err.
Proof.
  intros Hfails. split.
  { destruct Hfails as [(_ & _ & _ & _ & _ & -> & _)|[(msg & _ & _ & _ & ->)|(_ & _ & _ & ? & _)]];
      [by left|by right|by right]. }
  intros ro rs w Hin Hrep Hissued.
  assert (Hnext : next_reply w = answers n) by (unfold next_reply; by rewrite Hrep, Hissued).
  rewrite doWithAuth_logged_in by done. rewrite <- Hnext in Hfails.
  destruct Hfails as [(Herr & Hok & H401 & H503 & H9998 & -> & ->)
                     |[(msg & Herr & Hmsg & -> & ->)|(Herr & Hok & -> & Hne & Hdecode)]].
  - rewrite do_api_error by (done || by right). by eexists _, _, _.
  - rewrite (do_transport_error _ _ _ _ _ _ _ _ _ msg) by done. by eexists _, _, _.
  - rewrite do_success by done. rewrite Hdecode. by eexists _, _, _.
Qed.

(** In two requests: a connection refused, and refused again at the one
    attempt the retry loop makes. *)
Lemma refused_again_fails_the_fetch fuel url answers (n : nat) msg msg' :
  reply_err (answers n) = Some msg ->
  strings_Contains msg "connect: connection refused" = true ->
  reply_err (answers (S n)) = Some msg' ->
  strings_Contains msg' "connect: connection refused" = true ->
  fetch_fails (S (S (S (S fuel)))) url answers n None (Some ErrConnectionError).
Proof.
  intros Herr Hmsg Herr' Hmsg'. split; [by right|].
  intros ro rs w Hin Hrep Hissued.
  assert (Hnext : next_reply w = answers n) by (unfold next_reply; by rewrite Hrep, Hissued).
  rewrite doWithAuth_logged_in by done.
  rewrite (do_refused _ _ _ _ _ _ _ _ _ msg) by (by rewrite ?Hnext).
  change canRetry with true. cbv iota. rewrite retry_eq.
  set (w1 := answered "GET" url (with_auth w ro) w).
  assert (Hnext1 : next_reply w1 = answers (S n)).
  { change (next_reply w1) with (replies w (S (issued w))). by rewrite Hrep, Hissued. }
  rewrite (retry_loop_refused _ _ _ _ _ _ _ _ _ _ msg');
    [by eexists _, _, _|unfold RetryTimeout; lia|by rewrite Hnext1|done].
Qed.

(** In two requests: a denial, and a login that fails in its turn. *)
Lemma failed_renewal_fails_the_fetch fuel url answers (n : nat) :
  reply_err (answers n) = None ->
  Ok (reply_resp (answers n)) = false ->
  StatusCode (reply_resp (answers n)) = 401 ->
  reply_err (answers (S n)) = None ->
  Ok (reply_resp (answers (S n))) = false ->
  StatusCode (reply_resp (answers (S n))) <> 503 ->
  StatusCode (reply_resp (answers (S n))) <> 9998 ->
  fetch_fails (S (S (S fuel))) url answers n
    (Some (api_error (reply_resp (answers (S n))))) None.
Proof.
  intros Herr Hok Hdenied Herr' Hok' H503 H9998. split; [by left|].
  intros ro rs w Hin Hrep Hissued.
  assert (Hnext : next_reply w = answers n) by (unfold next_reply; by rewrite Hrep, Hissued).
  rewrite doWithAuth_logged_in by done.
  rewrite do_reauth by (by rewrite ?Hnext).
  set (w1 := Logout _).
  assert (Hnext1 : next_reply w1 = answers (S n)).
  { change (next_reply w1) with (replies w (S (issued w))). by rewrite Hrep, Hissued. }
  rewrite Login_eq. change (apikey (conn w1)) with "". cbn [String.eqb negb].
  assert (Hdo : do (S fuel) "PUT" "login" (login_options (conn w1)) new_ApiLogin
                  canRetry isSensitive (negb allowLogin) w1
                = Done (Some (api_error (reply_resp (answers (S n)))), None,
                        sent (login_options (conn w1)), new_ApiLogin,
                        answered "PUT" "login" (login_options (conn w1)) w1)).
  { rewrite <- Hnext1 in Herr', Hok', H503, H9998 |- *.
    destruct (Z.eq_dec (StatusCode (reply_resp (next_reply w1))) 401).
    - by apply do_denied.
    - apply do_api_error; try done. by right. }
  rewrite Hdo. cbn [mbind outcome_bind]. decide_goal. cbn [orb].
  by eexists _, _, _.
Qed.

(** Through replies it retries on, the loop goes on until its budget is
    spent, ten turns at most, and then gives up with the timeout error. *)
Lemma retry_loop_gives_up {R : Type} {U : Unmarshal Body R} (k : nat) :
  forall fuel method url ro (rs : R) sensitive allowLogin t1 backoff w,
    (forall i : nat, unavailable (replies w (issued w + i)%nat)) ->
    0 < backoff -> 11 <= backoff + Z.of_nat k ->
    (backoff - 1) * backoff * (2 * backoff - 1) <= 6 * (now w - t1) ->
    (k + 2 <= fuel)%nat ->
    exists ro' w',
      retry_loop fuel method url ro rs sensitive allowLogin t1 backoff w
      = Done (None, Some ErrRetryTimeout, ro', rs, w').
Proof.
  induction k as [|k IH];
    intros fuel method url ro rs sensitive allowLogin t1 backoff w
      Hall Hpos Hturns Htime Hfuel.
  - destruct fuel as [|fuel]; [lia|].
    rewrite retry_loop_timeout; [by eexists _, _|]. unfold RetryTimeout. nia.
  - destruct fuel as [|[|fuel]]; [lia..|].
    destruct (Z.lt_ge_cases (now w - t1) RetryTimeout) as [Hlt|Hge].
    2:{ rewrite retry_loop_timeout by lia. by eexists _, _. }
    destruct (Hall 0%nat) as (Herr & Hok & H401 & Hhttp).
    rewrite Nat.add_0_r in Herr, Hok, H401, Hhttp.
    rewrite (retry_loop_backoff _ _ _ _ _ _ _ _ _ _
               (api_error (reply_resp (next_reply w))) None (sent ro) rs
               (answered method url ro w)); [|lia| |done|done].
    2:{ apply do_api_error; try done. by left. }
    apply IH; [|lia|lia| |lia].
    + intros i. change (replies (Sleep _ (answered method url ro w))) with (replies w).
      change (issued (Sleep _ (answered method url ro w))) with (S (issued w)).
      replace (S (issued w) + i)%nat with (issued w + S i)%nat by lia. apply Hall.
    + cbn [Sleep answered DoRegularRequest now snd]. nia.
Qed.

(** In eleven requests at most: replies with status 503, until the retry
    loop gives up. *)
Lemma unavailable_fails_the_fetch fuel url answers (n : nat) :
  (forall i : nat, unavailable (answers (n + i)%nat)) ->
  StatusCode (reply_resp (answers n)) = 503 ->
  fetch_fails (S (S (12 + fuel))) url answers n None (Some ErrRetryTimeout).
Proof.
  intros Hall H503. split; [by right|].
  intros ro rs w Hin Hrep Hissued.
  assert (Hnext : next_reply w = answers n) by (unfold next_reply; by rewrite Hrep, Hissued).
  destruct (Hall 0%nat) as (Herr & Hok & _). rewrite Nat.add_0_r in Herr, Hok.
  rewrite doWithAuth_logged_in by done.
  change canRetry with true. rewrite do_retry_503 by (by rewrite Hnext).
  rewrite retry_eq.
  set (w1 := answered "GET" url (with_auth w ro) w).
  destruct (retry_loop_gives_up 10 (12 + fuel) "GET" url (sent (with_auth w ro)) rs
              (negb isSensitive) allowLogin (now w1) 1 w1) as (ro' & w' & ->);
    [|lia|lia|lia|lia|by eexists _, _, _].
  intros i. change (replies w1) with (replies w). change (issued w1) with (S (issued w)).
  rewrite Hrep, Hissued. replace (S n + i)%nat with (n + S i)%nat by lia. apply Hall.
Qed.

End FailingFetch.

(** ** The paginator against the scripted appliance *)

Lemma page_serves (q : list value) (n : Z) :
  serves_page (page q (counted n)) q (inject_Z n).
Proof.
  split; [done|]. split; [done|]. intros holder. split; [done|]. split; [done|].
  cbn. apply lookup_union_Some_l. unfold counted. apply lookup_singleton_eq.
Qed.

(** The scenario of the specification: a first page of 50 items of 120,
    then pages of 50 and of 20 items. *)
Definition three_pages : World Payload :=
  world "key"
    (script [page (items 0 50) (counted 120); page (items 50 50) (counted 120);
             page (items 100 20) (counted 120)] (failure 500)).

Lemma GetList_gathers_all_pages_witness :
  exists rs' w' (reqs : list Request),
    GetList 3 "app_instances" (Some new_RequestOptions) three_pages
    = Done (rs', None, None, w') /\
    Data rs' = items 0 50 ++ concat [items 50 50; items 100 20] /\
    int_of_float64 (inject_Z 120) <= Z.of_nat (length (Data rs')) /\
    trace w'
    = (EvRequest <$> reverse reqs)
      ++ trace (answered "GET" "app_instances"
                  (with_auth three_pages new_RequestOptions) three_pages) /\
    offset_sent <$> reqs
    = (fun o => strconv_FormatInt o 10) <$> page_offsets 50 [items 50 50; items 100 20] /\
    issued w' = 3%nat.
Proof.
  refine (GetList_gathers_all_pages 0 "app_instances" new_RequestOptions three_pages
            _ _ _ (mkListParams "" 0 "" 0) (inject_Z 120) [items 50 50; items 100 20]
            eq_refl eq_refl eq_refl eq_refl _ eq_refl eq_refl _ _ _).
  - discriminate.
  - intros [|[|i]] q; intros [= <-]; apply page_serves.
  - repeat constructor.
  - vm_compute. discriminate.
Defined.

(** The same scenario, evaluated: three page fetches, at no offset, at
    offset 50 and at offset 100, and the 120 items in order. *)
Lemma GetList_three_pages_of_120 :
  exists rs w,
    GetList 3 "app_instances" (Some new_RequestOptions) three_pages
    = Done (rs, None, None, w) /\
    Data rs = items 0 120 /\
    calls (trace w)
    = [("GET", "app_instances"); ("GET", "app_instances"); ("GET", "app_instances")] /\
    offset_sent <$> requests (trace w) = [""; "50"; "100"].
Proof.
  eexists _, _. split; [vm_compute; reflexivity|].
  repeat split; vm_compute; reflexivity.
Qed.

(** C4, counterexample. The first page succeeds with no item and a total
    count of 5, greater than its item count; no further page is fetched,
    and the call returns the empty result. *)
Lemma GetList_empty_first_page_stops :
  exists rs w,
    GetList 3 "app_instances" (Some new_RequestOptions)
      (world "key" (script [page [] (counted 5)] (page (items 0 5) (counted 5))))
    = Done (rs, None, None, w) /\
    Metadata rs !! "total_count" = Some (VFloat64 (inject_Z 5)) /\
    Data rs = [] /\
    length (requests (trace w)) = 1%nat.
Proof.
  eexists _, _. split; [vm_compute; reflexivity|].
  repeat split; vm_compute; reflexivity.
Qed.

(** A first page of two items of four, then a failure with status 500. *)
Definition failing_second_page : World Payload :=
  world "key" (script [page (items 0 2) (counted 4)] (failure 500)).

(** A success whose body is no JSON. *)
Definition garbled : Reply Payload := mkReply 0%N (mkResponse true 200 PNone) None.

(** Two pages of two items of six, and then [last] ever after. *)
Definition two_pages_then (last : Reply Payload) : World Payload :=
  world "key" (script [page (items 0 2) (counted 6); page (items 2 2) (counted 6)] last).

Lemma beyond_two_pages (last : Reply Payload) (P : Reply Payload -> Prop) :
  P last -> forall i : nat, P (replies (two_pages_then last) (2 + i)%nat).
Proof. intros Hlast i. cbn. by destruct i. Qed.

(** The third fetch fails in each of the ways a fetch fails: with an API
    error of status 500; with a connection refused twice; with a denial
    that the login does not repair; with replies of status 503 until the
    retry loop gives up; with a body that does not decode. The four items
    of the two pages are returned with the failure every time. *)
Lemma GetList_failure_keeps_gathered_pages_witness :
  (exists rs' w',
     GetList 3 "app_instances" (Some new_RequestOptions) (two_pages_then (failure 500))
     = Done (rs', Some (set_Http 500 new_ApiErrorResponse), None, w') /\
     Data rs' = items 0 2 ++ concat [items 2 2]) /\
  (exists rs' w',
     GetList 6 "app_instances" (Some new_RequestOptions) (two_pages_then refused)
     = Done (rs', None, Some ErrConnectionError, w') /\
     Data rs' = items 0 2 ++ concat [items 2 2]) /\
  (exists rs' w',
     GetList 5 "app_instances" (Some new_RequestOptions) (two_pages_then (failure 401))
     = Done (rs', Some (set_Http 401 new_ApiErrorResponse), None, w') /\
     Data rs' = items 0 2 ++ concat [items 2 2]) /\
  (exists rs' w',
     GetList 16 "app_instances" (Some new_RequestOptions) (two_pages_then (failure 503))
     = Done (rs', None, Some ErrRetryTimeout, w') /\
     Data rs' = items 0 2 ++ concat [items 2 2]) /\
  (exists rs' w',
     GetList 3 "app_instances" (Some new_RequestOptions) (two_pages_then garbled)
     = Done (rs', None, Some unexpected_end, w') /\
     Data rs' = items 0 2 ++ concat [items 2 2]).
Proof.
  assert (Hserved : forall last (i : nat) q,
            [items 2 2] !! i = Some q ->
            serves_page (replies (two_pages_then last) (1 + i)%nat) q (inject_Z 6)).
  { intros last [|i] q; intros [= <-]. apply page_serves. }
  assert (Hfits : is_int (truncate (inject_Z 6)))
    by (split; [vm_compute; discriminate|vm_compute; reflexivity]).
  repeat split.
  - refine (GetList_failure_keeps_gathered_pages 0 "app_instances" new_RequestOptions
              (two_pages_then (failure 500)) _ _ _ (mkListParams "" 0 "" 0) (inject_Z 6)
              [items 2 2] (Some (set_Http 500 new_ApiErrorResponse)) None
              eq_refl eq_refl eq_refl eq_refl _ eq_refl Hfits eq_refl (Hserved _) eq_refl _);
      [discriminate|].
    apply failing_reply_fails_the_fetch. left. repeat split; try reflexivity; cbn; lia.
  - refine (GetList_failure_keeps_gathered_pages 3 "app_instances" new_RequestOptions
              (two_pages_then refused) _ _ _ (mkListParams "" 0 "" 0) (inject_Z 6)
              [items 2 2] None (Some ErrConnectionError)
              eq_refl eq_refl eq_refl eq_refl _ eq_refl Hfits eq_refl (Hserved _) eq_refl _);
      [discriminate|].
    by eapply refused_again_fails_the_fetch.
  - refine (GetList_failure_keeps_gathered_pages 2 "app_instances" new_RequestOptions
              (two_pages_then (failure 401)) _ _ _ (mkListParams "" 0 "" 0) (inject_Z 6)
              [items 2 2] (Some (set_Http 401 new_ApiErrorResponse)) None
              eq_refl eq_refl eq_refl eq_refl _ eq_refl Hfits eq_refl (Hserved _) eq_refl _);
      [discriminate|].
    refine (failed_renewal_fails_the_fetch 0 "app_instances"
              (replies (two_pages_then (failure 401))) 2
              eq_refl eq_refl eq_refl eq_refl eq_refl _ _); cbn; lia.
  - refine (GetList_failure_keeps_gathered_pages 13 "app_instances" new_RequestOptions
              (two_pages_then (failure 503)) _ _ _ (mkListParams "" 0 "" 0) (inject_Z 6)
              [items 2 2] None (Some ErrRetryTimeout)
              eq_refl eq_refl eq_refl eq_refl _ eq_refl Hfits eq_refl (Hserved _) eq_refl _);
      [discriminate|].
    refine (unavailable_fails_the_fetch 0 "app_instances"
              (replies (two_pages_then (failure 503))) 2 _ eq_refl).
    apply beyond_two_pages. repeat split; cbn; lia.
  - refine (GetList_failure_keeps_gathered_pages 0 "app_instances" new_RequestOptions
              (two_pages_then garbled) _ _ _ (mkListParams "" 0 "" 0) (inject_Z 6)
              [items 2 2] None (Some unexpected_end)
              eq_refl eq_refl eq_refl eq_refl _ eq_refl Hfits eq_refl (Hserved _) eq_refl _);
      [discriminate|].
    apply failing_reply_fails_the_fetch. right. right. by repeat split.
Defined.

(** C3, counterexample. The second page fails. The failing response
    carries no item (decoded into an empty holder it leaves the holder
    empty), yet the result set returned with the failure is not empty: it
    holds the two items of the first page. *)
Lemma GetList_failed_page_returns_first_page :
  exists rs a w,
    GetList 3 "app_instances" (Some new_RequestOptions) failing_second_page
    = Done (rs, Some a, None, w) /\
    Http a = 500 /\
    Data (resp_JSON (reply_resp (failure 500)) new_ApiListOuter).1 = [] /\
    Data rs = items 0 2 /\
    Data rs <> [] /\
    length (requests (trace w)) = 2%nat.
Proof.
  eexists _, _, _. split; [vm_compute; reflexivity|].
  repeat split; try (vm_compute; reflexivity). discriminate.
Qed.

(** A first page whose metadata holds a string under [total_count]. *)
Definition uncounted (data : list value) : World Payload :=
  world "key" (script [page data {["total_count" := VString "120"]}] (failure 500)).

Lemma GetList_panics_without_total_count_witness :
  GetList 2 "app_instances" (Some new_RequestOptions) (uncounted (items 0 1))
  = Panic "interface conversion: interface {} is not float64".
Proof.
  refine (GetList_panics_without_total_count 2 "app_instances" new_RequestOptions
            (uncounted (items 0 1)) None _ _ _ (mkListParams "" 0 "" 0)
            eq_refl eq_refl eq_refl eq_refl _ _ _).
  - intros H. apply (f_equal (fun m : gmap string value => m !! "total_count")) in H.
    vm_compute in H. discriminate.
  - discriminate.
  - intros f H. vm_compute in H. discriminate.
Defined.

(** C10, counterexample. The first page succeeds with metadata that is not
    empty and holds no number under [total_count], and with no item: the
    call does not panic, it returns the empty page. *)
Lemma GetList_empty_page_does_not_panic :
  exists rs w,
    GetList 2 "app_instances" (Some new_RequestOptions) (uncounted [])
    = Done (rs, None, None, w) /\
    Metadata rs = {["total_count" := VString "120"]} /\
    Data rs = [].
Proof.
  eexists _, _. split; [vm_compute; reflexivity|].
  split; vm_compute; reflexivity.
Qed.

(** * Further properties of the code *)

(** ** Range parameters and the query map *)

Lemma Range_ToMap_lookup (p : Range.ListRangeParams) (k : string) :
  Range.ToMap p !! k = Range.query_entry p k.
Proof.
  unfold Range.ToMap, Range.query_entry.
  destruct (String.eqb (Range.Filter p) ""), (Range.Limit p =? 0),
    (String.eqb (Range.Sort p) ""), (Range.Offset p =? 0),
    (String.eqb (Range.Since p) ""), (String.eqb (Range.From p) ""),
    (String.eqb (Range.To p) "");
    cbn [negb];
    repeat match goal with
           | |- context [String.eqb k ?s] => destruct (String.eqb_spec k s) as [->|?]
           end;
    by simplify_map_eq.
Qed.

Lemma Range_index_text (p : Range.ListRangeParams) (k v : string) :
  Range.query_entry p k = (if String.eqb v "" then None else Some v) ->
  index (Range.ToMap p) k = v.
Proof.
  intros Hk. unfold index. rewrite Range_ToMap_lookup, Hk.
  by destruct (String.eqb_spec v "").
Qed.

(** [ListRangeParamsFromMap] undoes [ToMap]: the map holds exactly the
    fields that are not empty or zero, and reading it back gives the
    parameters it was written from. *)
Theorem range_query_round_trip (p : Range.ListRangeParams) :
  is_int (Range.Limit p) -> is_int (Range.Offset p) ->
  (forall k, Range.ToMap p !! k = Range.query_entry p k) /\
  Range.ListRangeParamsFromMap (Range.ToMap p) = Done p.
Proof.
  intros Hl Ho. split; [apply Range_ToMap_lookup|].
  unfold Range.ListRangeParamsFromMap.
  rewrite (Range_index_text p "filter" (Range.Filter p)) by reflexivity.
  rewrite (Range_index_text p "sort" (Range.Sort p)) by reflexivity.
  rewrite (Range_index_text p "since" (Range.Since p)) by reflexivity.
  rewrite (Range_index_text p "from" (Range.From p)) by reflexivity.
  rewrite (Range_index_text p "to" (Range.To p)) by reflexivity.
  rewrite (read_back _ "offset" _ Ho) by (by rewrite Range_ToMap_lookup).
  cbn [mbind outcome_bind].
  rewrite (read_back _ "limit" _ Hl) by (by rewrite Range_ToMap_lookup).
  cbn [mbind outcome_bind].
  by destruct p.
Qed.

Lemma range_query_round_trip_witness :
  let p := Range.mkListRangeParams "1h" "" "" "name" 100 "" (-3) in
  (forall k, Range.ToMap p !! k = Range.query_entry p k) /\
  Range.ListRangeParamsFromMap (Range.ToMap p) = Done p.
Proof.
  apply (range_query_round_trip (Range.mkListRangeParams "1h" "" "" "name" 100 "" (-3))).
  - unfold is_int. cbn. lia.
  - unfold is_int. cbn. lia.
Defined.

(** ** Numerals beyond the range of [int] *)

(** [ParseInt] refuses the decimal numeral of an integer that does not fit
    an [int] (here: one whose magnitude still fits 64 bits). *)
Lemma ParseInt_out_of_range (n : Z) :
  2 ^ 63 <= n <= maxUint64 \/ - maxUint64 <= n < - 2 ^ 63 ->
  strconv_ParseInt (strconv_FormatInt n 10) 0 0 = inr ErrRange.
Proof.
  intros Hn. unfold strconv_FormatInt.
  assert (Hu : 0 < Z.abs n <= maxUint64) by (bounds; lia).
  destruct (Z.ltb_spec n 0) as [Hneg|Hpos].
  - unfold strconv_ParseInt.
    replace (byte "-" =? 43) with false by reflexivity.
    replace (byte "-" =? 45) with true by reflexivity.
    rewrite (ParseUint_formatBits _ Hu).
    replace (0 =? 0) with true by reflexivity. unfold IntSize.
    cbn [negb andb].
    by replace (2 ^ (64 - 1) <? Z.abs n) with true
      by (symmetry; apply Z.ltb_lt; bounds; lia).
  - assert (Habs : Z.abs n = n) by lia. rewrite Habs in *.
    destruct (formatBits_head _ n (log2_fuel n (proj1 Hu))) as (c & s & Hfmt & Hc).
    pose proof (ParseUint_formatBits _ Hu) as Hparse.
    rewrite Hfmt in *. unfold strconv_ParseInt.
    replace (byte c =? 43) with false by (symmetry; apply Z.eqb_neq; lia).
    replace (byte c =? 45) with false by (symmetry; apply Z.eqb_neq; lia).
    rewrite Hparse.
    replace (0 =? 0) with true by reflexivity. unfold IntSize.
    cbn [negb andb].
    by replace (2 ^ (64 - 1) <=? n) with true
      by (symmetry; apply Z.leb_le; bounds; lia).
Qed.

(** [ListParamsFromMap] panics on an offset, or (the offset being absent)
    on a limit, that is the numeral of an integer beyond the range of
    [int]: such a query never yields parameters. *)
Theorem ListParamsFromMap_panics_out_of_range (m : gmap string string) (n : Z) :
  2 ^ 63 <= n <= maxUint64 \/ - maxUint64 <= n < - 2 ^ 63 ->
  m !! "offset" = Some (strconv_FormatInt n 10) \/
  (m !! "offset" = None /\ m !! "limit" = Some (strconv_FormatInt n 10)) ->
  ListParamsFromMap m = Panic "strconv.ParseInt: value out of range".
Proof.
  intros Hn Hm. pose proof (ParseInt_out_of_range n Hn) as Hparse.
  pose proof (FormatInt_nonempty n) as Hne.
  unfold ListParamsFromMap, index.
  destruct Hm as [-> | [-> ->]]; cbv beta iota.
  - rewrite (eqb_empty_false _ Hne). cbn [negb].
    unfold parse_or_panic. by rewrite Hparse.
  - cbn [String.eqb negb mbind outcome_bind].
    rewrite (eqb_empty_false _ Hne). cbn [negb].
    unfold parse_or_panic. by rewrite Hparse.
Qed.

Lemma ListParamsFromMap_panics_out_of_range_witness :
  ListParamsFromMap {["limit" := "9223372036854775808"]}
  = Panic "strconv.ParseInt: value out of range".
Proof.
  apply (ListParamsFromMap_panics_out_of_range _ 9223372036854775808).
  - left. unfold maxUint64. lia.
  - right. split; reflexivity.
Defined.

(** ** What a call may change *)

Section Invariants.

Context {Body : Type}.
Context {UE : Unmarshal Body ApiErrorResponse} {UL : Unmarshal Body ApiLogin}.

Implicit Types (w : World Body) (ro : RequestOptions).

Lemma same_request_refl ro : same_request ro ro.
Proof. by repeat split. Qed.

Lemma same_request_trans ro1 ro2 ro3 :
  same_request ro1 ro2 -> same_request ro2 ro3 -> same_request ro1 ro3.
Proof. intros (? & ? & ?) (? & ? & ?). repeat split; congruence. Qed.

Lemma same_request_sent ro : same_request ro (sent ro).
Proof. by repeat split. Qed.

Lemma same_request_header k v ro : same_request ro (set_Header k v ro).
Proof. by repeat split. Qed.

Lemma comes_after_refl w : comes_after w w.
Proof.
  repeat split; [lia|]. exists []. repeat split; [constructor|].
  unfold count_requests. cbn. lia.
Qed.

Lemma count_requests_app (evs1 evs2 : list Event) :
  count_requests (evs1 ++ evs2) = (count_requests evs1 + count_requests evs2)%nat.
Proof. unfold count_requests. by rewrite omap_app, length_app. Qed.

Lemma comes_after_trans w1 w2 w3 :
  comes_after w1 w2 -> comes_after w2 w3 -> comes_after w1 w3.
Proof.
  intros (Hr1 & Hn1 & Hc1 & evs1 & Ht1 & He1 & Hi1)
         (Hr2 & Hn2 & Hc2 & evs2 & Ht2 & He2 & Hi2).
  assert (Hbase : baseUrl (conn w2) = baseUrl (conn w1)).
  { apply (f_equal baseUrl) in Hc1. exact Hc1. }
  split; [congruence|]. split; [lia|]. split; [congruence|].
  exists (evs2 ++ evs1). split; [by rewrite Ht2, Ht1, app_assoc|].
  split.
  - apply Forall_app. split; [by rewrite <- Hbase|done].
  - rewrite count_requests_app. lia.
Qed.

Lemma comes_after_answered method url ro w :
  comes_after w (answered method url ro w).
Proof.
  split; [done|]. split; [cbn; lia|]. split; [done|].
  exists [EvRequest (mkRequest method (baseUrl (conn w)) url (sent ro))].
  split; [done|]. split.
  - constructor; [|constructor]. split; [|done].
    unfold header, sent, set_Header. cbn. apply lookup_insert_eq.
  - cbn. lia.
Qed.

Lemma comes_after_Sleep d w : 0 <= d -> comes_after w (Sleep d w).
Proof.
  intros Hd. split; [done|]. split; [cbn; lia|]. split; [done|].
  exists [EvSleep d]. split; [done|]. split; [by repeat constructor|].
  cbn. lia.
Qed.

Lemma comes_after_token k w : comes_after w (set_conn (set_apikey k (conn w)) w).
Proof.
  split; [done|]. split; [cbn; lia|]. split; [done|].
  exists []. split; [done|]. split; [constructor|]. cbn. lia.
Qed.

(** Splits a result of four parts and closes the parts that are at hand. *)
Ltac four_parts :=
  refine (conj _ (conj _ (conj _ _)));
  first [ done | by left | by right | apply same_request_refl
        | apply comes_after_refl | idtac ].

(** What every call of [do], [retry] and [Login] keeps, by induction on
    the fuel: at most one of the two results is set; the request options
    keep their query parameters, form data and JSON payload; the world
    only moves forward; and with
    re-authentication off the connection is left as it was. *)
Lemma calls_keep (fuel : nat) :
  (forall R (U : Unmarshal Body R) method url ro (rs : R) retry' sensitive allowLogin w
          apiresp err ro' rs' w',
     do fuel method url ro rs retry' sensitive allowLogin w
     = Done (apiresp, err, ro', rs', w') ->
     (apiresp = None \/ err = None) /\ same_request ro ro' /\ comes_after w w' /\
     (allowLogin = false -> conn w' = conn w)) /\
  (forall R (U : Unmarshal Body R) method url ro (rs : R) sensitive allowLogin w
          apiresp err ro' rs' w',
     retry fuel method url ro rs sensitive allowLogin w
     = Done (apiresp, err, ro', rs', w') ->
     (apiresp = None \/ err = None) /\ same_request ro ro' /\ comes_after w w' /\
     (allowLogin = false -> conn w' = conn w)) /\
  (forall R (U : Unmarshal Body R) method url ro (rs : R) sensitive allowLogin
          t1 backoff w apiresp err ro' rs' w',
     retry_loop fuel method url ro rs sensitive allowLogin t1 backoff w
     = Done (apiresp, err, ro', rs', w') ->
     (apiresp = None \/ err = None) /\ same_request ro ro' /\ comes_after w w' /\
     (allowLogin = false -> conn w' = conn w)) /\
  (forall w apiresp err w',
     Login fuel w = Done (apiresp, err, w') ->
     (apiresp = None \/ err = None) /\ comes_after w w').
Proof.
  induction fuel as [|fuel (IHdo & IHretry & IHloop & IHlogin)]; [by repeat split|].
  split; [|split; [|split]].
  - intros R U method url ro rs retry' sensitive allowLogin w apiresp err ro' rs' w'.
    rewrite do_eq. cbv zeta.
    pose proof (comes_after_answered method url ro w) as Hans.
    pose proof (same_request_sent ro) as Hsent.
    destruct (translateErrors _ _) as [eresp e] eqn:Htr.
    destruct (bool_decide (e = badStatus PermissionDenied)).
    { destruct (allowLogin && hasLoggedIn _) eqn:Hallow.
      - apply andb_true_iff in Hallow as [-> _].
        destruct (Login fuel _) as [[[a e2] w2]| |] eqn:Hlogin; [|done..].
        cbn [mbind outcome_bind].
        apply IHlogin in Hlogin as [Hone Hafter].
        assert (Hw2 : comes_after w w2).
        { eapply comes_after_trans; [exact Hans|].
          eapply comes_after_trans; [apply comes_after_token|exact Hafter]. }
        destruct (_ || _).
        + intros [= <- <- <- <- <-]. by four_parts.
        + intros Hdo. apply IHdo in Hdo as (Hone' & Hsame & Hafter' & _).
          split; [done|]. split.
          { eapply same_request_trans; [exact Hsent|].
            eapply same_request_trans; [apply same_request_header|exact Hsame]. }
          split; [by eapply comes_after_trans|done].
      - intros [= <- <- <- <- <-]. by four_parts. }
    destruct (retry' && _).
    { intros Hr. apply IHretry in Hr as (Hone & Hsame & Hafter & Hconn).
      split; [done|]. split; [by eapply same_request_trans|].
      split; [by eapply comes_after_trans|].
      intros Hno. by rewrite (Hconn Hno). }
    destruct (bool_decide (eresp ≠ None));
      [intros [= <- <- <- <- <-]; by four_parts|].
    destruct (bool_decide (e ≠ None));
      [intros [= <- <- <- <- <-]; by four_parts|].
    destruct (resp_JSON _ rs) as [rs1 e1].
    destruct (bool_decide (e1 ≠ None)); intros [= <- <- <- <- <-]; by four_parts.
  - intros R U method url ro rs sensitive allowLogin w apiresp err ro' rs' w'.
    rewrite retry_eq. apply IHloop.
  - intros R U method url ro rs sensitive allowLogin t1 backoff w apiresp err ro' rs' w'.
    rewrite retry_loop_eq. destruct (now w - t1 <? RetryTimeout).
    2:{ intros [= <- <- <- <- <-]. by four_parts. }
    destruct (do fuel method url ro rs (negb canRetry) sensitive allowLogin w)
      as [[[[[a e] ro1] rs1] w1]| |] eqn:Hdo; [|done..].
    cbn [mbind outcome_bind]. apply IHdo in Hdo as (Hone & Hsame & Hafter & Hconn).
    destruct (_ && _); [intros [= <- <- <- <- <-]; by four_parts|].
    destruct (match a with Some _ => _ | None => _ end);
      [intros [= <- <- <- <- <-]; by four_parts|].
    destruct (match e with Some _ => _ | None => _ end);
      [intros [= <- <- <- <- <-]; by four_parts|].
    intros Hloop. apply IHloop in Hloop as (Hone' & Hsame' & Hafter' & Hconn').
    split; [done|]. split; [by eapply same_request_trans|].
    split.
    + eapply comes_after_trans; [exact Hafter|].
      eapply comes_after_trans; [|exact Hafter'].
      apply comes_after_Sleep, Z.square_nonneg.
    + intros Hno. rewrite (Hconn' Hno). cbn [Sleep conn]. by apply Hconn.
  - intros w apiresp err w'. rewrite Login_eq.
    destruct (negb _).
    { intros [= <- <- <-]. split; [by left|apply comes_after_refl]. }
    destruct (do fuel "PUT" "login" _ _ _ _ _ w) as [[[[[a e] ro1] rs1] w1]| |] eqn:Hdo;
      [|done..].
    cbn [mbind outcome_bind]. apply IHdo in Hdo as (Hone & _ & Hafter & _).
    intros [= <- <- <-]. split; [done|].
    eapply comes_after_trans; [exact Hafter|].
    destruct (_ || _); apply comes_after_token.
Qed.

End Invariants.

Section Callers.

Context {Body : Type}.
Context {UE : Unmarshal Body ApiErrorResponse} {UL : Unmarshal Body ApiLogin}.
Context {UO : Unmarshal Body ApiListOuter} {UA : Unmarshal Body ApiOuter}.
Context {IC : IntConversion}.

Implicit Types (w : World Body).

Lemma doWithAuth_keeps {R : Type} {U : Unmarshal Body R} fuel method url
    (ro : option RequestOptions) (rs : R) w apiresp err opts rs' w' :
  doWithAuth fuel method url ro rs w = Done (apiresp, err, opts, rs', w') ->
  (apiresp = None \/ err = None) /\ handed_back ro opts /\ comes_after w w'.
Proof.
  unfold doWithAuth.
  assert (Hauthed : forall w0,
    comes_after w w0 ->
    ('(apiresp0, err0, ro'0, rs0, w1) ←
       do fuel method url
         (set_Headers
            (Some (<["Auth-Token" := apikey (conn w0)]> (<["tenant" := tenant (conn w0)]> ∅)))
            (default new_RequestOptions ro)) rs canRetry (negb isSensitive)
         allowLogin w0;
     Done (apiresp0, err0, (fun _ => ro'0) <$> ro, rs0, w1))
    = Done (apiresp, err, opts, rs', w') ->
    (apiresp = None \/ err = None) /\ handed_back ro opts /\ comes_after w w').
  { intros w0 Hw0.
    destruct (do fuel _ _ _ _ _ _ _ w0) as [[[[[a e] ro2] rs2] w2]| |] eqn:Hdo; [|done..].
    apply (proj1 (calls_keep fuel)) in Hdo as (Hone & Hsame & Hafter & _).
    cbn. intros [= <- <- <- <- <-]. split; [done|].
    split; [|by eapply comes_after_trans].
    destruct ro as [r|]; [|done]. eexists. split; [done|].
    eapply same_request_trans; [|exact Hsame]. by repeat split. }
  destruct (negb (hasLoggedIn w)); [|by apply Hauthed, comes_after_refl].
  destruct (Login fuel w) as [[[a e] w2]| |] eqn:Hlogin; [|done..].
  apply (proj2 (proj2 (proj2 (calls_keep fuel)))) in Hlogin as [Hone Hafter].
  cbn [mbind outcome_bind].
  destruct (_ || _); [|by apply Hauthed].
  intros [= <- <- <- <- <-]. split; [done|]. split; [|done].
  destruct ro as [r|]; [|done]. eexists. split; [done|apply same_request_refl].
Qed.

Lemma GetList_loop_keeps (fuel : nat) :
  forall url ro rs data offset ldata tcnt0 apiresp0 err0 w rs' apiresp err w',
    GetList_loop fuel url ro rs data offset ldata tcnt0 apiresp0 err0 w
    = Done (rs', apiresp, err, w') ->
    apiresp0 = None \/ err0 = None ->
    (apiresp = None \/ err = None) /\ comes_after w w'.
Proof.
  induction fuel as [|fuel IH];
    intros url ro rs data offset ldata tcnt0 apiresp0 err0 w rs' apiresp err w'; [done|].
  rewrite GetList_loop_eq. intros Hloop Hone0.
  destruct (negb _).
  2:{ injection Hloop as <- <- <- <-. split; [done|apply comes_after_refl]. }
  destruct (total_count rs) as [f| |]; [|done..].
  cbn [mbind outcome_bind] in Hloop. cbv zeta in Hloop.
  destruct (_ <=? _).
  { injection Hloop as <- <- <- <-. split; [done|apply comes_after_refl]. }
  destruct (doWithAuth fuel "GET" url _ _ w) as [[[[[a e] opts] rs1] w1]| |] eqn:Hfetch;
    [|done..].
  apply doWithAuth_keeps in Hfetch as (Hone & _ & Hafter).
  cbn [mbind outcome_bind] in Hloop.
  destruct (_ || _).
  { by injection Hloop as <- <- <- <-. }
  apply IH in Hloop as [Hone' Hafter']; [|done].
  split; [done|]. by eapply comes_after_trans.
Qed.

Lemma GetList_keeps fuel url (ro : option RequestOptions) w rs apiresp err w' :
  GetList fuel url ro w = Done (rs, apiresp, err, w') ->
  (apiresp = None \/ err = None) /\ comes_after w w'.
Proof.
  unfold GetList.
  destruct (doWithAuth fuel "GET" url ro new_ApiListOuter w)
    as [[[[[a e] opts] rs1] w1]| |] eqn:Hfirst; [|done..].
  apply doWithAuth_keeps in Hfirst as (Hone & _ & Hafter).
  cbn [mbind outcome_bind].
  destruct (_ && _); [|by intros [= <- <- <- <-]].
  destruct opts as [r|]; [|done].
  destruct (ListParamsFromMap _) as [lp| |]; [|done..].
  cbn [mbind outcome_bind].
  destruct (_ || _); [by intros [= <- <- <- <-]|].
  intros Hloop. apply GetList_loop_keeps in Hloop as [Hone' Hafter']; [|done].
  split; [done|]. by eapply comes_after_trans.
Qed.

Lemma verb_keeps method fuel url (ro : option RequestOptions) w rs apiresp err w' :
  verb method fuel url ro w = Done (rs, apiresp, err, w') ->
  (apiresp = None \/ err = None) /\ comes_after w w'.
Proof.
  unfold verb.
  destruct (doWithAuth fuel method url ro new_ApiOuter w)
    as [[[[[a e] opts] rs1] w1]| |] eqn:Hcall; [|done..].
  apply doWithAuth_keeps in Hcall as (Hone & _ & Hafter).
  cbn [mbind outcome_bind]. by intros [= <- <- <- <-].
Qed.

(** No call returns both an API error and an error: of the pair every
    call returns, at most one part is set. This holds for the four verbs,
    for [GetList], for [doWithAuth] and for [Login]. *)
Theorem one_failure_at_most fuel :
  (forall method url ro w rs apiresp err w',
     verb method fuel url ro w = Done (rs, apiresp, err, w') ->
     apiresp = None \/ err = None) /\
  (forall url ro w rs apiresp err w',
     GetList fuel url ro w = Done (rs, apiresp, err, w') ->
     apiresp = None \/ err = None) /\
  (forall R (U : Unmarshal Body R) method url ro (rs : R) w apiresp err opts rs' w',
     doWithAuth fuel method url ro rs w = Done (apiresp, err, opts, rs', w') ->
     apiresp = None \/ err = None) /\
  (forall w apiresp err w',
     Login fuel w = Done (apiresp, err, w') -> apiresp = None \/ err = None).
Proof.
  split; [|split; [|split]].
  - intros * H. by apply verb_keeps in H as [? _].
  - intros * H. by apply GetList_keeps in H as [? _].
  - intros * H. by apply doWithAuth_keeps in H as [? _].
  - intros * H. by apply (proj2 (proj2 (proj2 (calls_keep fuel)))) in H as [? _].
Qed.

(** Every call leaves a world that comes after the one it started in: the
    transport is consumed in order (the number of requests issued grows
    by the number of requests added to the trace), the clock does not go
    back, the trace only grows, every request added names the driver in
    its [Datera-Driver] header and goes to the base URL of the
    connection, and of the connection only the token may change. *)
Theorem calls_move_the_world_forward fuel :
  (forall method url ro w rs apiresp err w',
     verb method fuel url ro w = Done (rs, apiresp, err, w') -> comes_after w w') /\
  (forall url ro w rs apiresp err w',
     GetList fuel url ro w = Done (rs, apiresp, err, w') -> comes_after w w') /\
  (forall R (U : Unmarshal Body R) method url ro (rs : R) w apiresp err opts rs' w',
     doWithAuth fuel method url ro rs w = Done (apiresp, err, opts, rs', w') ->
     comes_after w w') /\
  (forall w apiresp err w',
     Login fuel w = Done (apiresp, err, w') -> comes_after w w').
Proof.
  split; [|split; [|split]].
  - intros * H. by apply verb_keeps in H as [_ ?].
  - intros * H. by apply GetList_keeps in H as [_ ?].
  - intros * H. by apply doWithAuth_keeps in H as (_ & _ & ?).
  - intros * H. by apply (proj2 (proj2 (proj2 (calls_keep fuel)))) in H as [_ ?].
Qed.

(** No attempt touches what the caller asks for: the query parameters,
    the form data and the JSON payload of the request options are, after
    [do] and after [doWithAuth], those the caller passed, however many
    retries and logins the call took. *)
Theorem attempts_keep_params_data_and_json fuel :
  (forall R (U : Unmarshal Body R) method url ro (rs : R) retry' sensitive allowLogin w
          apiresp err ro' rs' w',
     do fuel method url ro rs retry' sensitive allowLogin w
     = Done (apiresp, err, ro', rs', w') -> same_request ro ro') /\
  (forall R (U : Unmarshal Body R) method url ro (rs : R) w apiresp err opts rs' w',
     doWithAuth fuel method url ro rs w = Done (apiresp, err, opts, rs', w') ->
     handed_back ro opts).
Proof.
  split.
  - intros * H. by apply (proj1 (calls_keep fuel)) in H as (_ & ? & _).
  - intros * H. by apply doWithAuth_keeps in H as (_ & ? & _).
Qed.

(** With re-authentication off (as in the login request) an attempt,
    retried or not, leaves the connection as it was: it neither clears
    nor sets the token. *)
Theorem without_reauth_the_connection_is_kept fuel {R : Type} {U : Unmarshal Body R}
    method url ro (rs : R) retry' sensitive w apiresp err ro' rs' w' :
  do fuel method url ro rs retry' sensitive false w = Done (apiresp, err, ro', rs', w') ->
  conn w' = conn w.
Proof. intros H. apply (proj1 (calls_keep fuel)) in H as (_ & _ & _ & Hconn). by apply Hconn. Qed.

End Callers.

(** ** The login request always returns *)

Section Termination.

Context {Body : Type}.
Context {UE : Unmarshal Body ApiErrorResponse} {UL : Unmarshal Body ApiLogin}.
Context {R : Type} {U : Unmarshal Body R}.

Implicit Types (w : World Body) (ro : RequestOptions) (rs : R).

(** With retries and re-authentication off, an attempt is one request. *)
Lemma do_single fuel method url ro rs sensitive w :
  exists apiresp err rs',
    do (S fuel) method url ro rs false sensitive false w
    = Done (apiresp, err, sent ro, rs', answered method url ro w).
Proof.
  rewrite do_eq. cbv zeta. destruct (translateErrors _ _) as [eresp e].
  destruct (bool_decide (e = badStatus PermissionDenied)); cbn [andb]; [by eexists _, _, _|].
  destruct (bool_decide (eresp ≠ None)); [by eexists _, _, _|].
  destruct (bool_decide (e ≠ None)); [by eexists _, _, _|].
  destruct (resp_JSON _ rs) as [rs1 e1].
  destruct (bool_decide (e1 ≠ None)); by eexists _, _, _.
Qed.

(** The loop, with re-authentication off, ends within the turns its
    budget leaves: before the turn with back-off [b] the sleeps so far add
    up to [1 + 4 + ... + (b - 1)^2] seconds, which exceeds the budget of 300
    seconds from [b = 11] on. Each turn makes one request. *)
Lemma retry_loop_returns (n : nat) :
  forall fuel method url ro rs sensitive t1 backoff w,
    0 < backoff -> 11 <= backoff + Z.of_nat n ->
    (backoff - 1) * backoff * (2 * backoff - 1) <= 6 * (now w - t1) ->
    (n + 2 <= fuel)%nat ->
    exists apiresp err ro' rs' w',
      retry_loop fuel method url ro rs sensitive false t1 backoff w
      = Done (apiresp, err, ro', rs', w') /\
      (issued w' <= issued w + n)%nat.
Proof.
  induction n as [|n IH]; intros fuel method url ro rs sensitive t1 backoff w
    Hpos Hturns Htime Hfuel.
  - destruct fuel as [|fuel]; [lia|].
    rewrite retry_loop_timeout; [eexists _, _, _, _, _; split; [done|lia]|].
    unfold RetryTimeout. nia.
  - destruct fuel as [|[|fuel]]; [lia..|].
    rewrite retry_loop_eq. destruct (Z.ltb_spec (now w - t1) RetryTimeout).
    2:{ eexists _, _, _, _, _. split; [done|lia]. }
    change (negb canRetry) with false.
    destruct (do_single fuel method url ro rs sensitive w) as (a & e & rs1 & ->).
    cbn [mbind outcome_bind].
    destruct (_ && _); [eexists _, _, _, _, _; split; [done|cbn; lia]|].
    destruct (match a with Some _ => _ | None => _ end);
      [eexists _, _, _, _, _; split; [done|cbn; lia]|].
    destruct (match e with Some _ => _ | None => _ end);
      [eexists _, _, _, _, _; split; [done|cbn; lia]|].
    destruct (IH (S fuel) method url (sent ro) rs1 sensitive t1 (backoff + 1)
                (Sleep (backoff * backoff) (answered method url ro w)))
      as (a' & e' & ro' & rs' & w' & -> & Hissued); [lia|lia| |lia|].
    + cbn [Sleep answered DoRegularRequest now snd]. nia.
    + eexists _, _, _, _, _. split; [done|]. cbn in Hissued. lia.
Qed.

(** An attempt with re-authentication off returns after at most eleven
    requests: its own and those of at most ten turns of the retry loop. *)
Lemma do_returns fuel method url ro rs retry' sensitive w :
  (14 <= fuel)%nat ->
  exists apiresp err ro' rs' w',
    do fuel method url ro rs retry' sensitive false w
    = Done (apiresp, err, ro', rs', w') /\
    (issued w' <= issued w + 11)%nat.
Proof.
  intros Hfuel. destruct fuel as [|[|fuel]]; [lia..|].
  rewrite do_eq. cbv zeta. destruct (translateErrors _ _) as [eresp e].
  destruct (bool_decide (e = badStatus PermissionDenied)); cbn [andb];
    [eexists _, _, _, _, _; split; [done|cbn; lia]|].
  destruct (retry' && _).
  { rewrite retry_eq.
    destruct (retry_loop_returns 10 fuel method url (sent ro) rs sensitive
                (now (answered method url ro w)) 1 (answered method url ro w))
      as (a' & e' & ro' & rs' & w' & -> & Hissued); [lia..|].
    eexists _, _, _, _, _. split; [done|]. cbn in Hissued. lia. }
  destruct (bool_decide (eresp ≠ None)); [eexists _, _, _, _, _; split; [done|cbn; lia]|].
  destruct (bool_decide (e ≠ None)); [eexists _, _, _, _, _; split; [done|cbn; lia]|].
  destruct (resp_JSON _ rs) as [rs1 e1].
  destruct (bool_decide (e1 ≠ None)); eexists _, _, _, _, _; (split; [done|cbn; lia]).
Qed.

End Termination.

(** [Login] returns, whatever the transport answers: its request is made
    with re-authentication off, so it is retried within the budget of 300
    seconds and never re-enters the session. It makes at most eleven
    requests (fifteen units of fuel are enough for the calls it nests). *)
Theorem Login_returns {Body : Type} {UE : Unmarshal Body ApiErrorResponse}
    {UL : Unmarshal Body ApiLogin} (fuel : nat) (w : World Body) :
  (15 <= fuel)%nat ->
  exists apiresp err w',
    Login fuel w = Done (apiresp, err, w') /\ (issued w' <= issued w + 11)%nat.
Proof.
  intros Hfuel. destruct fuel as [|fuel]; [lia|]. rewrite Login_eq.
  destruct (negb _); [eexists _, _, _; split; [done|lia]|].
  destruct (do_returns fuel "PUT" "login" (login_options (conn w)) new_ApiLogin
              canRetry isSensitive w) as (a & e & ro' & login & w' & Hdo & Hissued); [lia|].
  change (negb allowLogin) with false. rewrite Hdo. cbn [mbind outcome_bind].
  eexists _, _, _. split; [done|]. by destruct (_ || _).
Qed.

Lemma Login_returns_witness :
  exists apiresp err w',
    Login 15 (world "" (script [] (failure 503))) = Done (apiresp, err, w') /\
    (issued w' <= issued (world "" (script [] (failure 503))) + 11)%nat.
Proof. apply (Login_returns 15 (world "" (script [] (failure 503)))). lia. Defined.

(** ** The first call on a connection *)

Section FirstCall.

Context {Body : Type}.
Context {UE : Unmarshal Body ApiErrorResponse} {UL : Unmarshal Body ApiLogin}.
Context {R : Type} {U : Unmarshal Body R}.

Implicit Types (w : World Body) (ro : RequestOptions) (rs : R).

(** A call on a connection that holds no token logs in first. When the
    transport accepts the login with a key and then answers the call with
    a success, [doWithAuth] makes exactly two requests: the login, a PUT
    to [login] carrying the credentials as form data and no token, and
    then the call, carrying the tenant, the key just received and the
    driver name as headers. The key is the token from then on, and the
    result is what the answer to the call decodes to. *)
Theorem first_call_logs_in fuel method url ro rs w login :
  hasLoggedIn w = false ->
  reply_err (next_reply w) = None ->
  Ok (reply_resp (next_reply w)) = true ->
  resp_JSON (reply_resp (next_reply w)) new_ApiLogin = (login, None) ->
  reply_err (replies w (S (issued w))) = None ->
  Ok (reply_resp (replies w (S (issued w)))) = true ->
  exists ro' w' login_request call,
    doWithAuth (S (S fuel)) method url (Some ro) rs w
    = Done (None, (resp_JSON (reply_resp (replies w (S (issued w)))) rs).2, Some ro',
            (resp_JSON (reply_resp (replies w (S (issued w)))) rs).1, w') /\
    apikey (conn w') = Key login /\
    trace w' = EvRequest call :: EvRequest login_request :: trace w /\
    req_method login_request = "PUT" /\ req_path login_request = "login" /\
    FormData (req_options login_request) = FormData (login_options (conn w)) /\
    header "Auth-Token" login_request = None /\
    req_method call = method /\ req_path call = url /\
    header "tenant" call = Some (tenant (conn w)) /\
    header "Auth-Token" call = Some (Key login) /\
    header "Datera-Driver" call = Some DateraDriver /\
    same_request ro (req_options call).
Proof.
  intros Hout Herr Hok Hlogin Herr2 Hok2.
  assert (Hkey : apikey (conn w) = "").
  { unfold hasLoggedIn in Hout. by destruct (String.eqb_spec (apikey (conn w)) ""). }
  unfold doWithAuth. rewrite Hout. cbn [negb].
  rewrite Login_eq, Hkey. cbn [String.eqb negb].
  rewrite do_success by done. rewrite Hlogin.
  cbn [mbind outcome_bind fst snd]. decide_goal. cbn [orb].
  set (w1 := set_conn _ _).
  assert (Hnext : next_reply w1 = replies w (S (issued w))) by reflexivity.
  rewrite do_success by (by rewrite Hnext). rewrite Hnext.
  cbn [mbind outcome_bind fmap option_fmap option_map default from_option id].
  eexists _, _, _, _. split; [reflexivity|]. split; [reflexivity|].
  split; [reflexivity|]. repeat split.
Qed.

(** When the transport answers the login with a failure status (a denial
    or any other status that is not retried), the call is not made:
    [doWithAuth] returns the API error of the login after that single
    request, hands the options and the holder back untouched, and leaves
    the connection without a token. *)
Theorem failed_login_stops_the_call fuel method url ro rs w :
  hasLoggedIn w = false ->
  reply_err (next_reply w) = None ->
  Ok (reply_resp (next_reply w)) = false ->
  StatusCode (reply_resp (next_reply w)) <> 503 ->
  StatusCode (reply_resp (next_reply w)) <> 9998 ->
  exists w',
    doWithAuth (S (S fuel)) method url (Some ro) rs w
    = Done (Some (api_error (reply_resp (next_reply w))), None, Some ro, rs, w') /\
    hasLoggedIn w' = false /\
    trace w'
    = EvRequest (mkRequest "PUT" (baseUrl (conn w)) "login" (sent (login_options (conn w))))
      :: trace w.
Proof.
  intros Hout Herr Hok H503 H9998.
  assert (Hkey : apikey (conn w) = "").
  { unfold hasLoggedIn in Hout. by destruct (String.eqb_spec (apikey (conn w)) ""). }
  unfold doWithAuth. rewrite Hout. cbn [negb].
  rewrite Login_eq, Hkey. cbn [String.eqb negb].
  assert (Hdo : do (S fuel) "PUT" "login" (login_options (conn w)) new_ApiLogin
                  canRetry isSensitive (negb allowLogin) w
                = Done (Some (api_error (reply_resp (next_reply w))), None,
                        sent (login_options (conn w)), new_ApiLogin,
                        answered "PUT" "login" (login_options (conn w)) w)).
  { destruct (Z.eq_dec (StatusCode (reply_resp (next_reply w))) 401).
    - by apply do_denied.
    - apply do_api_error; try done. by right. }
  rewrite Hdo. cbn [mbind outcome_bind]. decide_goal. cbn [orb].
  eexists. split; [reflexivity|]. by destruct (_ || _).
Qed.

End FirstCall.

Lemma first_call_logs_in_witness :
  exists ro' w' login_request call,
    doWithAuth 2 "GET" "system" (Some new_RequestOptions) new_ApiListOuter
      (world "" (script [login_ok "session-key"; page [] ∅] (failure 500)))
    = Done (None, None, Some ro', new_ApiListOuter, w') /\
    apikey (conn w') = "session-key" /\
    trace w' = [EvRequest call; EvRequest login_request] /\
    req_method login_request = "PUT" /\ req_path login_request = "login" /\
    FormData (req_options login_request)
    = Some (<["password" := "password"]> (<["name" := "admin"]> ∅)) /\
    header "Auth-Token" login_request = None /\
    req_method call = "GET" /\ req_path call = "system" /\
    header "tenant" call = Some "/root" /\
    header "Auth-Token" call = Some "session-key" /\
    header "Datera-Driver" call = Some DateraDriver /\
    same_request new_RequestOptions (req_options call).
Proof.
  exact (first_call_logs_in 0 "GET" "system" new_RequestOptions new_ApiListOuter
           (world "" (script [login_ok "session-key"; page [] ∅] (failure 500)))
           (mkApiLogin "session-key" "" 0) eq_refl eq_refl eq_refl eq_refl eq_refl eq_refl).
Defined.

Lemma failed_login_stops_the_call_witness :
  exists w',
    doWithAuth 2 "GET" "system" (Some new_RequestOptions) new_ApiListOuter
      (world "" (script [] (failure 401)))
    = Done (Some (set_Http 401 new_ApiErrorResponse), None, Some new_RequestOptions,
            new_ApiListOuter, w') /\
    hasLoggedIn w' = false /\
    trace w'
    = [EvRequest (mkRequest "PUT" "http://10.0.0.1:7717/v2.2" "login"
                    (sent (login_options (connection ""))))].
Proof.
  refine (failed_login_stops_the_call 0 "GET" "system" new_RequestOptions new_ApiListOuter
            (world "" (script [] (failure 401))) eq_refl eq_refl eq_refl _ _).
  - cbn. lia.
  - cbn. lia.
Defined.

(** ** [GetList] outside pagination *)

Section SinglePage.

Context {Body : Type}.
Context {UE : Unmarshal Body ApiErrorResponse} {UL : Unmarshal Body ApiLogin}.
Context {UO : Unmarshal Body ApiListOuter} {IC : IntConversion}.

Implicit Types (w : World Body) (ro : RequestOptions).

(** [GetList] returns its first fetch as it is, with no further request,
    in three cases: the fetch returned an API error; the envelope carries
    no metadata; or the caller gave a limit or an offset other than zero. *)
Theorem GetList_returns_the_single_page fuel url ro w apiresp err opts rs w' :
  doWithAuth fuel "GET" url (Some ro) new_ApiListOuter w
  = Done (apiresp, err, opts, rs, w') ->
  apiresp <> None \/ Metadata rs = ∅ \/
  (exists lp, ListParamsFromMap (default ∅ (Params ro)) = Done lp /\
              (Limit lp <> 0 \/ Offset lp <> 0)) ->
  GetList fuel url (Some ro) w = Done (rs, apiresp, err, w').
Proof.
  intros Hfirst Hcase.
  destruct (doWithAuth_keeps_Params _ _ _ _ _ _ _ _ _ _ _ Hfirst) as (ro' & -> & Hparams).
  unfold GetList. rewrite Hfirst. cbn [mbind outcome_bind].
  destruct Hcase as [Hfail|[Hempty|(lp & Hlp & Hwindow)]].
  - by rewrite bool_decide_eq_false_2.
  - rewrite Hempty, map_size_empty. by rewrite andb_false_r.
  - destruct (_ && _); [|done]. rewrite Hparams, Hlp. cbn [mbind outcome_bind].
    destruct Hwindow as [Hl|Ho].
    + by destruct (Z.eqb_spec (Limit lp) 0).
    + destruct (Z.eqb_spec (Offset lp) 0); [done|]. by rewrite orb_true_r.
Qed.

(** [doWithAuth] accepts [nil] options, [GetList] does not: called with
    [nil], it panics as soon as the first page comes back without an API
    error and with metadata, when it reads the caller's parameters. *)
Theorem GetList_without_options_panics fuel url w err opts rs w' :
  doWithAuth fuel "GET" url None new_ApiListOuter w = Done (None, err, opts, rs, w') ->
  Metadata rs <> ∅ ->
  GetList fuel url None w = Panic "invalid memory address or nil pointer dereference".
Proof.
  intros Hfirst Hmeta.
  assert (Hopts : opts = None).
  { unfold doWithAuth in Hfirst.
    destruct (negb (hasLoggedIn w)).
    - destruct (Login fuel w) as [[[a e] w2]| |]; [|done..].
      cbn [mbind outcome_bind] in Hfirst. destruct (_ || _); [congruence|].
      destruct (do fuel _ _ _ _ _ _ _ w2) as [[[[[a1 e1] ro2] rs2] w3]| |]; [|done..].
      cbn in Hfirst. congruence.
    - destruct (do fuel _ _ _ _ _ _ _ w) as [[[[[a1 e1] ro2] rs2] w3]| |]; [|done..].
      cbn in Hfirst. congruence. }
  subst opts. unfold GetList. rewrite Hfirst. cbn [mbind outcome_bind].
  decide_goal. cbn [andb].
  assert (Hsize : (0 <? Z.of_nat (size (Metadata rs))) = true).
  { apply Z.ltb_lt. assert (size (Metadata rs) <> 0%nat); [|lia].
    by apply map_size_non_empty_iff. }
  by rewrite Hsize.
Qed.

End SinglePage.

Lemma GetList_returns_the_single_page_witness :
  exists rs w',
    GetList 2 "app_instances"
      (Some (set_Params (Some {["limit" := "50"]}) new_RequestOptions)) three_pages
    = Done (rs, None, None, w') /\
    Data rs = items 0 50 /\ length (requests (trace w')) = 1%nat.
Proof.
  eexists _, _. split.
  - eapply (GetList_returns_the_single_page 2 "app_instances"
              (set_Params (Some {["limit" := "50"]}) new_RequestOptions) three_pages).
    + vm_compute. reflexivity.
    + right. right. exists (mkListParams "" 50 "" 0). split; [reflexivity|]. left. cbn. lia.
  - split; vm_compute; reflexivity.
Defined.

Lemma GetList_without_options_panics_witness :
  GetList 2 "app_instances" None three_pages
  = Panic "invalid memory address or nil pointer dereference".
Proof.
  eapply (GetList_without_options_panics 2 "app_instances" three_pages).
  - vm_compute. reflexivity.
  - intros H. apply (f_equal (fun m : gmap string value => m !! "total_count")) in H.
    vm_compute in H. discriminate.
Defined.

(** ** The back-off of the retry loop *)

Lemma squares_nonneg (k : nat) : forall b, 0 <= total (squares b k).
Proof.
  induction k as [|k IH]; intros b; [done|].
  cbn [squares total foldr]. pose proof (IH (b + 1)). pose proof (Z.square_nonneg b).
  unfold total in *. lia.
Qed.

Lemma waited_nonneg {Body : Type} (answers : nat -> Reply Body) (k : nat) :
  forall n, 0 <= waited answers n k.
Proof. induction k as [|k IH]; intros n; [done|]. cbn [waited]. pose proof (IH (S n)). lia. Qed.

Lemma sleeps_slept (d : Z) (r : Request) (t : list Event) :
  sleeps (EvSleep d :: EvRequest r :: t) = sleeps t ++ [d].
Proof. reflexivity. Qed.

Section Backoff.

Context {Body : Type}.
Context {UE : Unmarshal Body ApiErrorResponse} {UL : Unmarshal Body ApiLogin}.
Context {R : Type} {U : Unmarshal Body R}.

Implicit Types (w : World Body) (ro : RequestOptions) (rs : R).

(** Through [k] unavailable replies the loop makes [k] attempts, sleeps
    after each for the square of the back-off, and stands before the next
    turn with the back-off raised by [k], provided the budget is not spent
    by then. *)
Lemma retry_loop_unavailable method url sensitive allowLogin t1 rs (k : nat) :
  forall fuel ro backoff w,
    (forall i, (i < k)%nat -> unavailable (replies w (issued w + i)%nat)) ->
    now w - t1 + waited (replies w) (issued w) k + total (squares backoff k)
    < RetryTimeout ->
    exists ro' w',
      retry_loop (k + S (S fuel)) method url ro rs sensitive allowLogin t1 backoff w
      = retry_loop (S (S fuel)) method url ro' rs sensitive allowLogin t1
          (backoff + Z.of_nat k) w' /\
      replies w' = replies w /\
      issued w' = (issued w + k)%nat /\
      now w' = now w + waited (replies w) (issued w) k + total (squares backoff k) /\
      sleeps (trace w') = sleeps (trace w) ++ squares backoff k.
Proof.
  induction k as [|k IH]; intros fuel ro backoff w Hreplies Htime.
  - exists ro, w. cbn [Nat.add waited squares total foldr].
    rewrite Z.add_0_r, Nat.add_0_r, app_nil_r. repeat split; lia.
  - cbn [waited squares total foldr] in Htime. fold (total (squares (backoff + 1) k)) in Htime.
    pose proof (squares_nonneg k (backoff + 1)).
    pose proof (waited_nonneg (replies w) k (S (issued w))).
    pose proof (Z.square_nonneg backoff).
    destruct (Hreplies 0%nat (Nat.lt_0_succ k)) as (Herr & Hok & H401 & Hhttp).
    rewrite Nat.add_0_r in Herr, Hok, H401, Hhttp.
    cbn [Nat.add]. replace (k + S (S fuel))%nat with (S (k + S fuel)) by lia.
    rewrite (retry_loop_backoff _ _ _ _ _ _ _ _ _ _
               (api_error (reply_resp (next_reply w))) None (sent ro) rs
               (answered method url ro w)); [|lia| |done|done].
    2:{ apply do_api_error; try done. by left. }
    replace (S (k + S fuel)) with (k + S (S fuel))%nat by lia.
    set (w1 := Sleep (backoff * backoff) (answered method url ro w)).
    destruct (IH fuel (sent ro) (backoff + 1) w1)
      as (ro' & w' & Hloop & Hrep & Hissued & Hnow & Hsleeps).
    { intros i Hi. change (replies w1) with (replies w).
      change (issued w1) with (S (issued w)).
      replace (S (issued w) + i)%nat with (issued w + S i)%nat by lia.
      apply Hreplies. lia. }
    { change (now w1) with (now w + Z.of_N (elapsed (next_reply w)) + backoff * backoff).
      change (replies w1) with (replies w). change (issued w1) with (S (issued w)).
      unfold next_reply. lia. }
    exists ro', w'. rewrite Hloop. split; [f_equal; lia|].
    split; [done|]. split; [rewrite Hissued; cbn; lia|]. split.
    + rewrite Hnow. cbn [waited squares total foldr]. fold (total (squares (backoff + 1) k)).
      change (now w1) with (now w + Z.of_N (elapsed (next_reply w)) + backoff * backoff).
      change (replies w1) with (replies w). change (issued w1) with (S (issued w)).
      unfold next_reply. lia.
    + rewrite Hsleeps. unfold w1, Sleep, answered, DoRegularRequest.
      cbn [trace snd squares]. rewrite sleeps_slept, <- app_assoc. reflexivity.
Qed.

(** The retry loop backs off by squares. Let the transport answer the
    next [k] attempts with unavailable replies and the attempt after them
    with a success that decodes, and let the time these take, sleeps
    included, stay within the budget. Then [retry] returns that success
    after [k + 1] requests, having slept 1, 4, 9, ..., [k^2] seconds
    between them. *)
Theorem retry_backs_off_by_squares (k : nat) fuel method url ro rs sensitive allowLogin w :
  (forall i, (i < k)%nat -> unavailable (replies w (issued w + i)%nat)) ->
  reply_err (replies w (issued w + k)%nat) = None ->
  Ok (reply_resp (replies w (issued w + k)%nat)) = true ->
  (resp_JSON (reply_resp (replies w (issued w + k)%nat)) rs).2 = None ->
  waited (replies w) (issued w) k + total (squares 1 k) < RetryTimeout ->
  exists ro' w',
    retry (S (k + S (S fuel))) method url ro rs sensitive allowLogin w
    = Done (None, None, ro', (resp_JSON (reply_resp (replies w (issued w + k)%nat)) rs).1,
            w') /\
    sleeps (trace w') = sleeps (trace w) ++ squares 1 k /\
    issued w' = S (issued w + k).
Proof.
  intros Hreplies Herr Hok Hdecode Htime. rewrite retry_eq.
  destruct (retry_loop_unavailable method url sensitive allowLogin (now w) rs k
              fuel ro 1 w Hreplies)
    as (ro' & w' & -> & Hrep & Hissued & Hnow & Hsleeps); [lia|].
  assert (Hnext : next_reply w' = replies w (issued w + k)%nat).
  { unfold next_reply. by rewrite Hrep, Hissued. }
  rewrite retry_loop_eq.
  destruct (Z.ltb_spec (now w' - now w) RetryTimeout); [|lia].
  rewrite do_success by (by rewrite Hnext). rewrite Hnext, Hdecode.
  cbn [mbind outcome_bind]. decide_goal. cbn [andb].
  eexists _, _. split; [reflexivity|]. split; [done|]. cbn. by rewrite Hissued.
Qed.

End Backoff.

Lemma retry_backs_off_by_squares_witness :
  exists ro' w',
    retry 6 "GET" "system" new_RequestOptions new_ApiListOuter false true
      (world "key" (script [failure 503; failure 503; failure 503; page [] ∅] (failure 500)))
    = Done (None, None, ro', new_ApiListOuter, w') /\
    sleeps (trace w') = [1; 4; 9] /\
    issued w' = 4%nat.
Proof.
  refine (retry_backs_off_by_squares 3 0 "GET" "system" new_RequestOptions
            new_ApiListOuter false true
            (world "key" (script [failure 503; failure 503; failure 503; page [] ∅]
                            (failure 500))) _ eq_refl eq_refl eq_refl _).
  - intros [|[|[|i]]] Hi; [..|lia]; repeat split; cbn; lia.
  - reflexivity.
Defined.

(** ** The invariants against the scripted appliance *)

Lemma one_failure_at_most_witness :
  exists rs apiresp err w',
    Get 3 "system" (Some new_RequestOptions) (world "key" (script [] (failure 500)))
    = Done (rs, apiresp, err, w') /\
    (apiresp = None \/ err = None).
Proof.
  eexists _, _, _, _. split; [vm_compute; reflexivity|].
  eapply (proj1 (one_failure_at_most 3) "GET" "system" (Some new_RequestOptions)
            (world "key" (script [] (failure 500)))).
  vm_compute. reflexivity.
Defined.

Lemma calls_move_the_world_forward_witness :
  exists rs apiresp err w',
    GetList 3 "app_instances" (Some new_RequestOptions) three_pages
    = Done (rs, apiresp, err, w') /\
    comes_after three_pages w'.
Proof.
  eexists _, _, _, _. split; [vm_compute; reflexivity|].
  eapply (proj1 (proj2 (calls_move_the_world_forward 3)) "app_instances"
            (Some new_RequestOptions) three_pages).
  vm_compute. reflexivity.
Defined.

Lemma attempts_keep_params_data_and_json_witness :
  exists apiresp err ro' rs' w',
    do 4 "GET" "system" (set_Params (Some {["limit" := "5"]}) new_RequestOptions)
      new_ApiListOuter true false true
      (world "stale-key" (script [failure 401; login_ok "key-1"; page [] ∅] (failure 500)))
    = Done (apiresp, err, ro', rs', w') /\
    same_request (set_Params (Some {["limit" := "5"]}) new_RequestOptions) ro'.
Proof.
  eexists _, _, _, _, _. split; [vm_compute; reflexivity|].
  eapply (proj1 (attempts_keep_params_data_and_json 4) ApiListOuter _ "GET" "system"
            _ new_ApiListOuter true false true
            (world "stale-key"
               (script [failure 401; login_ok "key-1"; page [] ∅] (failure 500)))).
  vm_compute. reflexivity.
Defined.

Lemma without_reauth_the_connection_is_kept_witness :
  exists apiresp err ro' rs' w',
    do 4 "PUT" "login" (login_options (connection "")) new_ApiLogin true true false
      (world "" (script [failure 503; login_ok "key-1"] (failure 500)))
    = Done (apiresp, err, ro', rs', w') /\
    conn w' = connection "".
Proof.
  eexists _, _, _, _, _. split; [vm_compute; reflexivity|].
  eapply (without_reauth_the_connection_is_kept 4 "PUT" "login"
            (login_options (connection "")) new_ApiLogin true true
            (world "" (script [failure 503; login_ok "key-1"] (failure 500)))).
  vm_compute. reflexivity.
Defined.

(** ** A session that has expired *)

Section Renewal.

Context {Body : Type}.
Context {UE : Unmarshal Body ApiErrorResponse} {UL : Unmarshal Body ApiLogin}.
Context {R : Type} {U : Unmarshal Body R}.

Implicit Types (w : World Body) (ro : RequestOptions) (rs : R).

(** A call whose token the appliance no longer accepts is renewed behind
    the caller's back. When the transport denies the call, accepts the
    login that follows with a key and answers the replay with a success,
    [doWithAuth] makes exactly three requests: the call with the old
    token, the login without a token, and the call again with the key
    just received. The key is the token from then on and the result is
    what the answer to the replay decodes to; the denial is not reported. *)
Theorem expired_session_is_renewed fuel method url ro rs w login :
  hasLoggedIn w = true ->
  reply_err (next_reply w) = None ->
  Ok (reply_resp (next_reply w)) = false ->
  StatusCode (reply_resp (next_reply w)) = 401 ->
  reply_err (replies w (S (issued w))) = None ->
  Ok (reply_resp (replies w (S (issued w)))) = true ->
  resp_JSON (reply_resp (replies w (S (issued w)))) new_ApiLogin = (login, None) ->
  reply_err (replies w (S (S (issued w)))) = None ->
  Ok (reply_resp (replies w (S (S (issued w))))) = true ->
  exists ro' w' first login_request replay,
    doWithAuth (S (S (S fuel))) method url (Some ro) rs w
    = Done (None, (resp_JSON (reply_resp (replies w (S (S (issued w))))) rs).2, Some ro',
            (resp_JSON (reply_resp (replies w (S (S (issued w))))) rs).1, w') /\
    apikey (conn w') = Key login /\
    trace w' = EvRequest replay :: EvRequest login_request :: EvRequest first :: trace w /\
    req_method first = method /\ req_path first = url /\
    header "Auth-Token" first = Some (apikey (conn w)) /\
    req_method login_request = "PUT" /\ req_path login_request = "login" /\
    header "Auth-Token" login_request = None /\
    req_method replay = method /\ req_path replay = url /\
    header "Auth-Token" replay = Some (Key login) /\
    header "tenant" replay = Some (tenant (conn w)) /\
    same_request ro (req_options replay).
Proof.
  intros Hin Herr Hok Hdenied Herr1 Hok1 Hlogin Herr2 Hok2.
  rewrite doWithAuth_logged_in by done.
  rewrite do_reauth by done.
  set (w0 := Logout _).
  assert (Hnext0 : next_reply w0 = replies w (S (issued w))) by reflexivity.
  rewrite Login_eq. change (apikey (conn w0)) with "". cbn [String.eqb negb].
  rewrite do_success by (by rewrite Hnext0). rewrite Hnext0, Hlogin.
  cbn [mbind outcome_bind fst snd]. decide_goal. cbn [orb].
  set (w1 := set_conn _ _).
  assert (Hnext1 : next_reply w1 = replies w (S (S (issued w)))) by reflexivity.
  rewrite do_success by (by rewrite Hnext1). rewrite Hnext1.
  cbn [mbind outcome_bind].
  eexists _, _, _, _, _. split; [reflexivity|]. split; [reflexivity|].
  split; [reflexivity|]. repeat split.
Qed.

End Renewal.

Lemma expired_session_is_renewed_witness :
  exists ro' w' first login_request replay,
    doWithAuth 3 "GET" "system" (Some new_RequestOptions) new_ApiListOuter
      (world "stale-key" (script [failure 401; login_ok "fresh-key"; page [] ∅] (failure 500)))
    = Done (None, None, Some ro', new_ApiListOuter, w') /\
    apikey (conn w') = "fresh-key" /\
    trace w' = [EvRequest replay; EvRequest login_request; EvRequest first] /\
    req_method first = "GET" /\ req_path first = "system" /\
    header "Auth-Token" first = Some "stale-key" /\
    req_method login_request = "PUT" /\ req_path login_request = "login" /\
    header "Auth-Token" login_request = None /\
    req_method replay = "GET" /\ req_path replay = "system" /\
    header "Auth-Token" replay = Some "fresh-key" /\
    header "tenant" replay = Some "/root" /\
    same_request new_RequestOptions (req_options replay).
Proof.
  exact (expired_session_is_renewed 0 "GET" "system" new_RequestOptions new_ApiListOuter
           (world "stale-key"
              (script [failure 401; login_ok "fresh-key"; page [] ∅] (failure 500)))
           (mkApiLogin "fresh-key" "" 0)
           eq_refl eq_refl eq_refl eq_refl eq_refl eq_refl eq_refl eq_refl eq_refl).
Defined.

(** ** The headers of a call *)

Section Headers.

Context {Body : Type}.
Context {UE : Unmarshal Body ApiErrorResponse} {UL : Unmarshal Body ApiLogin}.
Context {R : Type} {U : Unmarshal Body R}.

Implicit Types (w : World Body) (ro : RequestOptions) (rs : R).

(** Whatever an attempt goes on to do, it starts with its own request. *)
Lemma do_first_request fuel method url ro rs retry' sensitive allowLogin w
    apiresp err ro' rs' w' :
  do fuel method url ro rs retry' sensitive allowLogin w
  = Done (apiresp, err, ro', rs', w') ->
  exists evs : list Event,
    trace w'
    = evs ++ EvRequest (mkRequest method (baseUrl (conn w)) url (sent ro)) :: trace w.
Proof.
  destruct fuel as [|fuel]; [done|]. rewrite do_eq. cbv zeta.
  assert (Hlater : forall w2, comes_after (answered method url ro w) w2 ->
            exists evs : list Event,
              trace w2
              = evs ++ EvRequest (mkRequest method (baseUrl (conn w)) url (sent ro))
                         :: trace w).
  { intros w2 (_ & _ & _ & evs & Htrace & _). by exists evs. }
  assert (Hnow : exists evs : list Event,
            trace (answered method url ro w)
            = evs ++ EvRequest (mkRequest method (baseUrl (conn w)) url (sent ro))
                       :: trace w) by (by exists []).
  destruct (translateErrors _ _) as [eresp e].
  destruct (bool_decide (e = badStatus PermissionDenied)).
  - destruct (allowLogin && _); [|by intros [= <- <- <- <- <-]].
    destruct (Login fuel _) as [[[a e2] w2]| |] eqn:Hlogin; [|done..].
    apply (proj2 (proj2 (proj2 (calls_keep fuel)))) in Hlogin as [_ Hafter].
    assert (Hw2 : comes_after (answered method url ro w) w2).
    { eapply comes_after_trans; [|exact Hafter]. apply comes_after_token. }
    cbn [mbind outcome_bind].
    destruct (_ || _); [intros [= <- <- <- <- <-]; by apply Hlater|].
    intros Hdo. apply (proj1 (calls_keep fuel)) in Hdo as (_ & _ & Hafter2 & _).
    apply Hlater. by eapply comes_after_trans.
  - destruct (retry' && _).
    { intros Hretry.
      apply (proj1 (proj2 (calls_keep fuel))) in Hretry as (_ & _ & Hafter & _).
      by apply Hlater. }
    destruct (bool_decide (eresp ≠ None)); [by intros [= <- <- <- <- <-]|].
    destruct (bool_decide (e ≠ None)); [by intros [= <- <- <- <- <-]|].
    destruct (resp_JSON _ rs) as [rs1 e1].
    destruct (bool_decide (e1 ≠ None)); by intros [= <- <- <- <- <-].
Qed.

(** [doWithAuth] replaces the headers of the caller's options: whatever
    headers the caller set, the request of a call on a connection that
    holds a token carries exactly three, the tenant, the token and the
    driver name. The query parameters, the form data and the JSON payload
    sent are the caller's. *)
Theorem doWithAuth_replaces_the_headers fuel method url ro rs w apiresp err opts rs' w' :
  hasLoggedIn w = true ->
  doWithAuth fuel method url (Some ro) rs w = Done (apiresp, err, opts, rs', w') ->
  exists (evs : list Event) (call : Request),
    trace w' = evs ++ EvRequest call :: trace w /\
    req_method call = method /\ req_path call = url /\
    Headers (req_options call)
    = Some {[ "tenant" := tenant (conn w); "Auth-Token" := apikey (conn w);
              "Datera-Driver" := DateraDriver ]} /\
    same_request ro (req_options call).
Proof.
  intros Hin. rewrite doWithAuth_logged_in by done.
  destruct (do fuel _ _ _ _ _ _ _ w) as [[[[[a e] ro1] rs1] w1]| |] eqn:Hdo; [|done..].
  cbn [mbind outcome_bind]. intros [= <- <- <- <- <-].
  apply do_first_request in Hdo as [evs Htrace].
  exists evs, (mkRequest method (baseUrl (conn w)) url (sent (with_auth w ro))).
  split; [done|]. split; [done|]. split; [done|]. split; [|by repeat split].
  unfold sent, set_Header, with_auth, set_Headers. cbn [req_options Headers default].
  reflexivity.
Qed.

End Headers.

Lemma doWithAuth_replaces_the_headers_witness :
  let w := world "key" (script [page [] ∅] (failure 500)) in
  let ro := set_Header "X-Request-Id" "42" new_RequestOptions in
  exists (evs : list Event) (call : Request),
    trace (answered "GET" "system" (with_auth w ro) w) = evs ++ EvRequest call :: trace w /\
    req_method call = "GET" /\ req_path call = "system" /\
    Headers (req_options call)
    = Some {[ "tenant" := "/root"; "Auth-Token" := "key";
              "Datera-Driver" := DateraDriver ]} /\
    same_request ro (req_options call).
Proof.
  intros w ro.
  refine (doWithAuth_replaces_the_headers 1 "GET" "system" ro new_ApiListOuter w
            None None (Some (sent (with_auth w ro))) new_ApiListOuter
            (answered "GET" "system" (with_auth w ro) w) _ _).
  - reflexivity.
  - vm_compute. reflexivity.
Defined.
